(** * AI tutor backend: keyword mood tagging, the RAG service and its HTTP endpoints

    A shallow embedding of [backend/utils.py], [backend/config.py],
    [backend/rag_service.py], [backend/models.py], [backend/app.py],
    [backend/stt_service.py] and [backend/tts_service.py].

    Python strings are [string]; a raised exception is the left injection
    of a sum, a returned value the right one; the dictionary of session
    memories is a finite map.  The service is glue around third-party
    packages: the lower-casing of [str], the document loader, the text
    splitter, the vector store and its retriever, the chat model and the
    conversational chain are Section variables, so that a theorem holds for
    whatever they compute.  The one exception is the memory discipline of
    the chain, which the failure property of [chat] rests on; it is
    written out in the module [LangChain]. *)

From Stdlib Require Import String Ascii List Bool Arith Lia.
From stdpp Require Import base option gmap strings.
Import ListNotations.
Local Open Scope string_scope.

(** ** Strings as Python uses them *)

Module PyStr.

(** [needle in hay] on Python strings. *)
Fixpoint str_contains (needle hay : string) : bool :=
  String.prefix needle hay ||
  match hay with
  | EmptyString => false
  | String _ rest => str_contains needle rest
  end.

(** [needle] occurs in [hay] as a contiguous run of characters. *)
Definition occurs_in (needle hay : string) : Prop :=
  exists pre post, hay = String.append pre (String.append needle post).

(** [sep.join(parts)] *)
Fixpoint join (sep : string) (parts : list string) : string :=
  match parts with
  | [] => EmptyString
  | [p] => p
  | p :: rest => String.append p (String.append sep (join sep rest))
  end.

(** Lower-casing of the ASCII letters; every other character is kept. *)
Definition lower_char (c : ascii) : ascii :=
  let n := nat_of_ascii c in
  if (65 <=? n)%nat && (n <=? 90)%nat then ascii_of_nat (n + 32) else c.

Fixpoint ascii_lower (s : string) : string :=
  match s with
  | EmptyString => EmptyString
  | String c rest => String (lower_char c) (ascii_lower rest)
  end.

(** The characters [str.strip()] removes at both ends (ASCII range). *)
Definition is_space (c : ascii) : bool :=
  let n := nat_of_ascii c in
  ((9 <=? n)%nat && (n <=? 13)%nat) || ((28 <=? n)%nat && (n <=? 32)%nat).

Fixpoint lstrip (s : string) : string :=
  match s with
  | EmptyString => EmptyString
  | String c rest => if is_space c then lstrip rest else s
  end.

Fixpoint rstrip (s : string) : string :=
  match s with
  | EmptyString => EmptyString
  | String c rest =>
      match rstrip rest with
      | EmptyString => if is_space c then EmptyString else String c EmptyString
      | r => String c r
      end
  end.

Definition strip (s : string) : string := rstrip (lstrip s).

End PyStr.

(** ** [utils.py]: keyword mood tagging *)

Module Utils.
Import PyStr.

Definition happy_keywords : list string :=
  ["correct"; "great"; "excellent"; "yes"; "wonderful";
   "perfect"; "awesome"; "congratulations"; "well done";
   "fantastic"; "brilliant"; "amazing"; "good job"].

Definition thinking_keywords : list string :=
  ["let me"; "think"; "consider"; "analyze"; "hmm";
   "interesting"; "let's see"; "pondering"; "evaluating";
   "contemplating"].

Definition explaining_keywords : list string :=
  ["explain"; "because"; "therefore"; "means"; "definition";
   "concept"; "understand"; "basically"; "essentially";
   "in other words"; "for example"; "specifically"; "namely"].

Definition confused_keywords : list string :=
  ["sorry"; "cannot"; "don't know"; "unclear"; "unsure";
   "confused"; "not sure"; "uncertain"; "ambiguous";
   "difficult to say"].

(** [any(word in text_lower for word in keywords)] *)
Definition any_in (keywords : list string) (text_lower : string) : bool :=
  existsb (fun word => str_contains word text_lower) keywords.

(** Some keyword of the list occurs somewhere inside the text. *)
Definition mentions (keywords : list string) (text_lower : string) : Prop :=
  exists word, In word keywords /\ occurs_in word text_lower.

Definition emotions : list string :=
  ["happy"; "explaining"; "thinking"; "confused"; "neutral"].

Section DetectEmotion.

(** [str.lower] of the Python runtime. *)
Variable lower : string -> string.

Definition detect_emotion (text : string) : string :=
  let text_lower := lower text in
  if any_in happy_keywords text_lower then "happy"
  else if any_in explaining_keywords text_lower then "explaining"
  else if any_in thinking_keywords text_lower then "thinking"
  else if any_in confused_keywords text_lower then "confused"
  else "neutral".

End DetectEmotion.

End Utils.

(** ** [config.py]: the settings the service reads *)

Module Config.

Record Settings := {
  VECTOR_DB_PATH : string;
  CHUNK_SIZE : nat;
  CHUNK_OVERLAP : nat;
  RETRIEVAL_K : nat;
  DATA_DIR : string
}.

(** The defaults of the class; an environment variable of the same name
    overrides a field. *)
Definition default_settings : Settings := {|
  VECTOR_DB_PATH := "./chroma_db";
  CHUNK_SIZE := 1000;
  CHUNK_OVERLAP := 200;
  RETRIEVAL_K := 3;
  DATA_DIR := "./data"
|}.

End Config.

(** ** [rag_service.py] *)

Module RagService.
Import PyStr Config.

(** A raised exception: the [ValueError] the service raises itself, or an
    exception that comes out of a collaborator. *)
Inductive exn : Type :=
  | ValueError (msg : string)
  | AttributeError (msg : string)
  | LibraryError (msg : string).

(** [str(e)] *)
Definition str_of_exn (e : exn) : string :=
  match e with
  | ValueError msg | AttributeError msg | LibraryError msg => msg
  end.

Definition Result (A : Type) : Type := (exn + A)%type.

Record Document := { page_content : string; doc_source : string }.

(** The buffer of a [ConversationBufferMemory] built with
    [return_messages=True]: the messages of the conversation so far. *)
Inductive Message : Type :=
  | HumanMessage (content : string)
  | AIMessage (content : string).

Record ConversationBufferMemory := {
  memory_key : string;
  return_messages : bool;
  output_key : string;
  chat_memory : list Message
}.

(** What a call of the conversational chain returns: a dict with the key
    [answer] and, when asked for, the key [source_documents]. *)
Record ChainOutput := {
  answer : string;
  source_documents : option (list Document)
}.

(** The data directory as the service sees it: file name and content. *)
Definition Files : Type := list (string * string).

Definition python_basics_txt : string := "
Python Programming Basics

Python is a high-level, interpreted programming language known for its simplicity and readability.
It was created by Guido van Rossum and first released in 1991.

Key Features:
- Easy to learn and use
- Interpreted language
- Dynamically typed
- Object-oriented
- Extensive standard library

Python is widely used in:
- Web development (Django, Flask)
- Data science and analysis
- Machine learning and AI
- Automation and scripting
- Scientific computing
            ".

Definition machine_learning_txt : string := "
Machine Learning Fundamentals

Machine Learning is a subset of artificial intelligence that enables systems to learn from data.

Types of Machine Learning:
1. Supervised Learning: Uses labeled training data
2. Unsupervised Learning: Uses unlabeled data
3. Reinforcement Learning: Learns through interaction

Common ML Algorithms:
- Linear Regression
- Decision Trees
- Random Forests
- Neural Networks
            ".

Definition data_structures_txt : string := "
Data Structures and Algorithms

Data structures are ways of organizing and storing data efficiently.

Common Data Structures:
1. Arrays: Fixed-size collection
2. Linked Lists: Dynamic size
3. Stacks: LIFO (Last In First Out)
4. Queues: FIFO (First In First Out)
5. Trees: Hierarchical structure
6. Graphs: Nodes and edges
            ".


(** The dictionary [samples] of [_create_sample_documents], in its order. *)
Definition samples : Files :=
  [("python_basics.txt", python_basics_txt);
   ("machine_learning.txt", machine_learning_txt);
   ("data_structures.txt", data_structures_txt)].

(** [open(filepath, 'w').write(content)]: replaces the file or adds it. *)
Fixpoint write_file (name content : string) (files : Files) : Files :=
  match files with
  | [] => [(name, content)]
  | (n, c) :: rest =>
      if String.eqb n name then (name, content) :: rest
      else (n, c) :: write_file name content rest
  end.

(** What a call has done to the outside world, oldest first. *)
Inductive Event : Type :=
  | Retrieved (k : nat) (query : string)
  | Generated (prompt : string)
  | ChainCalled (k : nat) (question : string).

Definition is_generated (ev : Event) : bool :=
  match ev with Generated _ => true | _ => false end.

(** How many times the chat model was invoked in a trace. *)
Definition generations (tr : list Event) : nat :=
  length (List.filter is_generated tr).

Section Service.

(** The handle of a Chroma vector store. *)
Variable Index : Type.

Variable settings : Settings.

(** The collaborators.  [ChatGoogleGenerativeAI(...)] and
    [HuggingFaceEmbeddings(...)] build the clients; [loader.load()]
    enumerates the text files of the data directory; the splitter is built
    from a chunk size and an overlap and run on the documents;
    [Chroma.from_documents] embeds the chunks and persists the index, it
    receives the state of the persist directory and returns the new one;
    [as_retriever(k).get_relevant_documents]; [llm.invoke(prompt).content];
    and a call of [ConversationalRetrievalChain.from_llm(llm, retriever,
    memory, return_source_documents=True)] on a question, which holds the
    session's memory object and may update it. *)
Variable init_llm : Result unit.
Variable init_embeddings : Result unit.
Variable loader_load : Files -> Result (list Document).
Variable split_documents : nat -> nat -> list Document -> Result (list Document).
Variable chroma_from_documents :
  list Document -> option Index -> Result Index * option Index.
Variable get_relevant_documents : Index -> nat -> string -> Result (list Document).
Variable llm_invoke : string -> Result string.
Variable qa_chain :
  Index -> nat -> ConversationBufferMemory -> string ->
  ConversationBufferMemory * Result ChainOutput.

(** The two directories the service touches: the persisted index
    ([None]: the path does not exist) and the data directory. *)
Record FileSystem := {
  vector_db : option Index;
  data_dir : option Files
}.

(** The fields of the service object that change. *)
Record RAGService := {
  vectorstore : option Index;
  chat_memories : gmap (option string) ConversationBufferMemory
}.

(** *** Start-up *)

Definition _create_sample_documents (files : Files) : Files :=
  fold_left (fun fs '(filename, content) => write_file filename (strip content) fs)
            samples files.

(** The files the loader enumerates on a fresh build: those of the data
    directory, or the three samples written into a directory that did not
    exist. *)
Definition corpus_files (fs : FileSystem) : Files :=
  match data_dir fs with
  | Some files => files
  | None => _create_sample_documents []
  end.

Definition _create_vector_store (fs : FileSystem) : Result Index * FileSystem :=
  let fs :=
    match data_dir fs with
    | None =>
        {| vector_db := vector_db fs;
           data_dir := Some (_create_sample_documents []) |}
    | Some _ => fs
    end in
  match loader_load (default [] (data_dir fs)) with
  | inl e => (inl e, fs)
  | inr documents =>
      match documents with
      | [] => (inl (ValueError "No documents found in data directory"), fs)
      | _ :: _ =>
          match split_documents (CHUNK_SIZE settings) (CHUNK_OVERLAP settings) documents with
          | inl e => (inl e, fs)
          | inr splits =>
              let '(r, db) := chroma_from_documents splits (vector_db fs) in
              (r, {| vector_db := db; data_dir := data_dir fs |})
          end
      end
  end.

(** A persist directory that exists is opened as the vector store. *)
Definition _load_vector_store (fs : FileSystem) : Result Index * FileSystem :=
  match vector_db fs with
  | Some idx => (inr idx, fs)
  | None => _create_vector_store fs
  end.

Definition _initialize (fs : FileSystem) : Result Index * FileSystem :=
  match init_llm with
  | inl e => (inl e, fs)
  | inr _ =>
      match init_embeddings with
      | inl e => (inl e, fs)
      | inr _ => _load_vector_store fs
      end
  end.

(** [RAGService()]: the object exists only when [_initialize] returns. *)
Definition __init__ (fs : FileSystem) : Result RAGService * FileSystem :=
  match _initialize fs with
  | (inl e, fs') => (inl e, fs')
  | (inr idx, fs') =>
      (inr {| vectorstore := Some idx; chat_memories := ∅ |}, fs')
  end.

(** *** Requests: the service object and the trace of outside calls *)

Record World := {
  service : RAGService;
  trace : list Event
}.

Definition M (A : Type) : Type := World -> Result A * World.

Definition ret {A} (a : A) : M A := fun w => (inr a, w).
Definition raise {A} (e : exn) : M A := fun w => (inl e, w).
Definition bind {A B} (m : M A) (k : A -> M B) : M B :=
  fun w =>
    match m w with
    | (inl e, w') => (inl e, w')
    | (inr a, w') => k a w'
    end.

Local Notation "'let*' x ':=' m 'in' k" :=
  (bind m (fun x => k)) (at level 10, x pattern, m at level 200, k at level 200).

Definition log {A} (ev : Event) (r : Result A) : M A :=
  fun w => (r, {| service := service w; trace := trace w ++ [ev] |}).

(** [self.vectorstore.as_retriever(...)]: on [None] the attribute lookup
    raises. *)
Definition as_retriever : M Index :=
  fun w =>
    match vectorstore (service w) with
    | Some idx => ret idx w
    | None => raise (AttributeError "'NoneType' object has no attribute 'as_retriever'") w
    end.

Definition build_prompt (context question : string) : string :=
  "You are a friendly AI tutor. Answer clearly and concisely.

Context: " +:+ context +:+ "

Question: " +:+ question +:+ "

Answer:".

(** [query]; its [except] clause logs the exception and raises it again. *)
Definition query (question : string) : M (string * list Document) :=
  let* retriever := as_retriever in
  let* docs := log (Retrieved (RETRIEVAL_K settings) question)
                   (get_relevant_documents retriever (RETRIEVAL_K settings) question) in
  let context := join "

" (map page_content docs) in
  let prompt := build_prompt context question in
  let* content := log (Generated prompt) (llm_invoke prompt) in
  ret (content, docs).

Definition new_memory : ConversationBufferMemory := {|
  memory_key := "chat_history";
  return_messages := true;
  output_key := "answer";
  chat_memory := []
|}.

(** [if session_id not in self.chat_memories: self.chat_memories[session_id] = ...] *)
Definition ensure_memory (session_id : option string) : M unit :=
  fun w =>
    match chat_memories (service w) !! session_id with
    | Some _ => (inr tt, w)
    | None =>
        (inr tt,
         {| service := {| vectorstore := vectorstore (service w);
                          chat_memories := <[session_id := new_memory]> (chat_memories (service w)) |};
            trace := trace w |})
    end.

(** [qa_chain({"question": question})] with [memory=self.chat_memories[session_id]]:
    the chain works on the object stored under the key. *)
Definition call_chain (retriever : Index) (session_id : option string) (question : string)
  : M ChainOutput :=
  fun w =>
    match chat_memories (service w) !! session_id with
    | None => raise (LibraryError "KeyError") w
    | Some memory =>
        let '(memory', r) := qa_chain retriever (RETRIEVAL_K settings) memory question in
        (r,
         {| service := {| vectorstore := vectorstore (service w);
                          chat_memories := <[session_id := memory']> (chat_memories (service w)) |};
            trace := trace w ++ [ChainCalled (RETRIEVAL_K settings) question] |})
    end.

(** [chat]; the session memory is looked up, and created when new, before
    the chain is built; the [except] clause logs the exception and raises
    it again, what was stored stays stored. *)
Definition chat (question : string) (session_id : option string)
  : M (string * list Document) :=
  let* _ := ensure_memory session_id in
  let* retriever := as_retriever in
  let* result := call_chain retriever session_id question in
  ret (answer result, default [] (source_documents result)).

(** The memory object a chat call on [session_id] works on: the stored
    one, or a new one with no messages. *)
Definition session_memory (svc : RAGService) (session_id : option string)
  : ConversationBufferMemory :=
  match chat_memories svc !! session_id with
  | Some memory => memory
  | None => new_memory
  end.

(** A run of chat calls on one session, one question after the other, up
    to the first that raises; the answers in call order. *)
Fixpoint chats (questions : list string) (session_id : option string)
  : M (list string) :=
  match questions with
  | [] => ret []
  | q :: rest =>
      let* r := chat q session_id in
      let* replies := chats rest session_id in
      ret (fst r :: replies)
  end.

(** The messages stored for a session; a session never referred to has
    none. *)
Definition history_of (svc : RAGService) (session_id : option string) : list Message :=
  match chat_memories svc !! session_id with
  | Some memory => chat_memory memory
  | None => []
  end.

End Service.

Arguments vector_db {Index} _.
Arguments data_dir {Index} _.
Arguments corpus_files {Index} _.
Arguments vectorstore {Index} _.
Arguments chat_memories {Index} _.
Arguments service {Index} _.
Arguments trace {Index} _.
Arguments history_of {Index} _ _.
Arguments session_memory {Index} _ _.

End RagService.

(** ** The conversational chain with a memory attached

    [ConversationalRetrievalChain] and [ConversationBufferMemory] are
    LangChain classes; the repository holds only the call. *)

Module LangChain.
Import RagService.

Section Chain.

Variable Index : Type.

(** One turn of the chain without its memory: condensing the question,
    retrieval and generation, from the history and the question. *)
Variable run : Index -> nat -> list Message -> string -> Result ChainOutput.

(** The turn is appended as a human message and an AI message. *)
Definition save_context (memory : ConversationBufferMemory) (question reply : string)
  : ConversationBufferMemory :=
  {| memory_key := memory_key memory;
     return_messages := return_messages memory;
     output_key := output_key memory;
     chat_memory := chat_memory memory ++ [HumanMessage question; AIMessage reply] |}.

(** Modelled from the spec: the call of the conversational chain with the
    session's memory attached, which is not in the repository.  The chain
    fetches the history of the session, runs the turn on it, and appends
    the question and the answer to the session only after a successful
    generation; when the embedding, retrieval or generation call fails the
    entire operation fails with that error and the history is not
    updated. *)
Definition chain_call (retriever : Index) (k : nat)
    (memory : ConversationBufferMemory) (question : string)
  : ConversationBufferMemory * Result ChainOutput :=
  match run retriever k (chat_memory memory) question with
  | inl e => (memory, inl e)
  | inr out => (save_context memory question (answer out), inr out)
  end.

End Chain.

(** The messages of a list of turns, a turn being a question and its answer. *)
Definition messages_of (turns : list (string * string)) : list Message :=
  flat_map (fun '(q, a) => [HumanMessage q; AIMessage a]) turns.

End LangChain.

(** ** [models.py]: the request and response models *)

Module Models.

(** A field of the JSON body of a request. *)
Inductive JsonField : Type :=
  | Absent
  | JNull
  | JStr (s : string).

Record RawBody := {
  raw_question : JsonField;
  raw_session_id : JsonField
}.

Inductive ValidationError : Type :=
  | Missing (field : string)
  | StringType (field : string)
  | StringTooShort (field : string) (min_length : nat).

Record QueryRequest := { question : string }.

Record ChatRequest := {
  chat_question : string;
  session_id : option string
}.

(** [question: str = Field(..., min_length=1)] *)
Definition validate_question (f : JsonField) : ValidationError + string :=
  match f with
  | Absent => inl (Missing "question")
  | JNull => inl (StringType "question")
  | JStr s =>
      if (1 <=? String.length s)%nat then inr s
      else inl (StringTooShort "question" 1)
  end.

(** [session_id: Optional[str] = Field(default="default")] *)
Definition validate_session_id (f : JsonField) : option string :=
  match f with
  | Absent => Some "default"
  | JNull => None
  | JStr s => Some s
  end.

Definition validate_QueryRequest (body : RawBody) : ValidationError + QueryRequest :=
  match validate_question (raw_question body) with
  | inl err => inl err
  | inr q => inr {| question := q |}
  end.

Definition validate_ChatRequest (body : RawBody) : ValidationError + ChatRequest :=
  match validate_question (raw_question body) with
  | inl err => inl err
  | inr q => inr {| chat_question := q; session_id := validate_session_id (raw_session_id body) |}
  end.

(** The answer to an HTTP request: the [Response] model, the rejection of
    a body that does not validate, or an [HTTPException]. *)
Inductive HttpResponse : Type :=
  | Response (text emotion : string)
  | Unprocessable (err : ValidationError)
  | HTTPException (status_code : nat) (detail : string).

End Models.

(** ** [app.py]: the two question endpoints *)

Module App.
Import Config RagService Models.

Section Endpoints.

Variable Index : Type.
Variable settings : Settings.
Variable lower : string -> string.
Variable get_relevant_documents : Index -> nat -> string -> Result (list Document).
Variable llm_invoke : string -> Result string.
Variable qa_chain :
  Index -> nat -> ConversationBufferMemory -> string ->
  ConversationBufferMemory * Result ChainOutput.

Definition query_endpoint (request : QueryRequest) (w : World Index)
  : HttpResponse * World Index :=
  match query Index settings get_relevant_documents llm_invoke (question request) w with
  | (inr (reply, source_docs), w') =>
      (Response reply (Utils.detect_emotion lower reply), w')
  | (inl e, w') => (HTTPException 500 (str_of_exn e), w')
  end.

Definition chat_endpoint (request : ChatRequest) (w : World Index)
  : HttpResponse * World Index :=
  match chat Index settings qa_chain (chat_question request) (session_id request) w with
  | (inr (reply, source_docs), w') =>
      (Response reply (Utils.detect_emotion lower reply), w')
  | (inl e, w') => (HTTPException 500 (str_of_exn e), w')
  end.

(** [POST /query] and [POST /chat]: the body is validated against the
    request model before the endpoint function is entered. *)
Definition post_query (body : RawBody) (w : World Index) : HttpResponse * World Index :=
  match validate_QueryRequest body with
  | inl err => (Unprocessable err, w)
  | inr request => query_endpoint request w
  end.

Definition post_chat (body : RawBody) (w : World Index) : HttpResponse * World Index :=
  match validate_ChatRequest body with
  | inl err => (Unprocessable err, w)
  | inr request => chat_endpoint request w
  end.

End Endpoints.

End App.

(** ** A small instance to run the definitions on *)

Module Demo.
Import Config RagService.

Definition demo_docs : list Document :=
  [ {| page_content := "Python is a language."; doc_source := "a.txt" |};
    {| page_content := "ML uses data."; doc_source := "b.txt" |} ].

(** A service whose vector store is the handle [0] and that has served no
    request yet. *)
Definition demo_world : World nat :=
  {| service := {| vectorstore := Some 0; chat_memories := ∅ |}; trace := [] |}.

Definition demo_retriever : nat -> nat -> string -> Result (list Document) :=
  fun _ k _ => inr (firstn k demo_docs).

Definition demo_llm : string -> Result string :=
  fun _ => inr "A language.".

(** A loader that takes the files whose name ends in [.txt]. *)
Definition is_txt (name : string) : bool :=
  let n := String.length name in
  String.eqb (String.substring (n - 4) 4 name) ".txt".

Definition demo_loader (files : Files) : Result (list Document) :=
  inr (map (fun '(name, content) => {| page_content := content; doc_source := name |})
           (List.filter (fun '(name, _) => is_txt name) files)).

(** No persisted index, and a data directory that holds no text file. *)
Definition demo_fs : FileSystem nat :=
  {| vector_db := None; data_dir := Some [("README.md", "notes")] |}.

(** A chain run that answers every question except "boom", on which the
    generation raises. *)
Definition demo_run : nat -> nat -> list Message -> string -> Result ChainOutput :=
  fun _ k _ question =>
    if String.eqb question "boom" then inl (LibraryError "generation failed")
    else inr {| answer := "A language."; source_documents := Some (firstn k demo_docs) |}.

Definition demo_chain := LangChain.chain_call nat demo_run.

Definition demo_questions : list string := ["What is ML?"; "Give an example"].

(** The service after the two questions were asked on session "s1". *)
Definition demo_world_2 : World nat :=
  snd (chats nat default_settings demo_chain demo_questions (Some "s1") demo_world).

End Demo.

(** ** Reading the data directory back *)

Module DataDir.
Import RagService.

(** The content of the file called [name], when the directory has one. *)
Fixpoint read_file (name : string) (files : Files) : option string :=
  match files with
  | [] => None
  | (n, c) :: rest => if String.eqb n name then Some c else read_file name rest
  end.

(** The names of the sample files. *)
Definition sample_names : list string := map fst samples.

End DataDir.

(** ** More instances to run the definitions on *)

Module Demo2.
Import Config RagService.

(** No persisted index, and a data directory with one text file. *)
Definition fs_one_text : FileSystem nat :=
  {| vector_db := None; data_dir := Some [("a.txt", "Python is a language.")] |}.


Definition split_whole : nat -> nat -> list Document -> Result (list Document) :=
  fun _ _ docs => inr docs.

Definition split_broken : nat -> nat -> list Document -> Result (list Document) :=
  fun _ _ _ => inl (ValueError "bad chunk settings").

Definition build_store : list Document -> option nat -> Result nat * option nat :=
  fun splits _ => (inr (length splits), Some (length splits)).

Definition world_without_store : World nat :=
  {| service := {| vectorstore := None; chat_memories := ∅ |}; trace := [] |}.

End Demo2.

(** ** More of Python's strings, and POSIX paths *)

Module PyPath.

(** [s.endswith(suffix)] *)
Fixpoint endswith (s suffix : string) : bool :=
  String.eqb s suffix ||
  match s with
  | EmptyString => false
  | String _ rest => endswith rest suffix
  end.

(** [s] ends in [suffix]. *)
Definition ends_in (s suffix : string) : Prop :=
  exists pre, s = String.append pre suffix.

(** [s.replace(old, new)] for a non-empty [old]: every occurrence, from the
    left, occurrences not overlapping.  [skip] counts the characters of a
    replaced occurrence still to be passed over. *)
Fixpoint replace_from (skip : nat) (old new s : string) : string :=
  match s with
  | EmptyString => EmptyString
  | String c rest =>
      match skip with
      | S k => replace_from k old new rest
      | O =>
          if String.prefix old s
          then String.append new (replace_from (String.length old - 1) old new rest)
          else String c (replace_from 0 old new rest)
      end
  end.

(** With an empty [old], [new] goes before every character and at the end. *)
Fixpoint intersperse (new s : string) : string :=
  match s with
  | EmptyString => new
  | String c rest => String.append new (String c (intersperse new rest))
  end.

Definition replace (old new s : string) : string :=
  match old with
  | EmptyString => intersperse new s
  | String _ _ => replace_from 0 old new s
  end.

(** [os.path.join(a, b)] on a POSIX system. *)
Definition path_join (a b : string) : string :=
  if String.prefix "/" b then b
  else if String.eqb a EmptyString || endswith a "/" then String.append a b
  else String.append a (String.append "/" b).

(** The truth value of a string: the empty one is false. *)
Definition truthy (s : string) : bool :=
  match s with
  | EmptyString => false
  | String _ _ => true
  end.

End PyPath.

(** ** [stt_service.py]: transcription of an audio file *)

Module SttService.
Import PyPath.

(** [Exception(msg)], as the audio services raise it. *)
Inductive exception : Type :=
  | Exception (msg : string).

(** How the work inside the [try] of [transcribe_audio_file] ends: opening
    the file, adjusting for noise, recording and [recognize_google].  It
    returns the text, or raises [sr.UnknownValueError], [sr.RequestError]
    or any other exception (a file that cannot be read among them), the
    last two with their text. *)
Inductive Recognition : Type :=
  | Heard (text : string)
  | UnknownValueError
  | RequestError (msg : string)
  | OtherError (msg : string).

Section Stt.

(** [settings.STT_LANGUAGE] *)
Variable STT_LANGUAGE : string.

(** The recognizer, on the content of the file at the path ([None]: there
    is no such file) and a language code. *)
Variable recognize : option string -> string -> Recognition.

(** [language or settings.STT_LANGUAGE] *)
Definition language_or_default (language : option string) : string :=
  match language with
  | Some l => if truthy l then l else STT_LANGUAGE
  | None => STT_LANGUAGE
  end.

Definition transcribe_audio_file (fs : gmap string string)
    (audio_file_path : string) (language : option string)
  : exception + option string :=
  let language := language_or_default language in
  match recognize (fs !! audio_file_path) language with
  | Heard text => inr (Some text)
  | UnknownValueError => inr None
  | RequestError msg => inl (Exception ("STT service error: " +:+ msg))
  | OtherError msg => inl (Exception ("Transcription failed: " +:+ msg))
  end.

End Stt.

End SttService.

(** ** [tts_service.py]: the speech engine and its output file *)

Module TtsService.
Import PyPath SttService.

Record Voice := {
  voice_id : string;
  voice_name : string;
  voice_languages : list string
}.

Section Tts.

(** The type of a volume (a float in the source). *)
Variable Volume : Type.

(** The properties of the engine the service sets. *)
Record Engine := {
  rate : Z;
  volume : Volume;
  voice : string
}.

Record TTSService := {
  engine : Engine;
  voices : list Voice
}.

(** [settings.TTS_SPEED], [settings.TTS_VOLUME], [tempfile.gettempdir()] *)
Variable TTS_SPEED : Z.
Variable TTS_VOLUME : Volume.
Variable tmpdir : string.

(** [pyttsx3.init()] with the voices the engine reports: the engine with
    the properties of the driver, or an exception. *)
Variable pyttsx3_init : exception + (Engine * list Voice).

(** [engine.save_to_file(text, path); engine.runAndWait()]: whether it
    raised, and with what text, and the audio it wrote to the path, if it
    wrote any. *)
Record Synthesis := {
  raised : option string;
  written : option string
}.

Variable synthesize : Engine -> string -> string -> Synthesis.

Definition set_rate_of (e : Engine) (r : Z) : Engine :=
  {| rate := r; volume := volume e; voice := voice e |}.
Definition set_volume_of (e : Engine) (v : Volume) : Engine :=
  {| rate := rate e; volume := v; voice := voice e |}.
Definition set_voice_of (e : Engine) (id : string) : Engine :=
  {| rate := rate e; volume := volume e; voice := id |}.

(** [TTSService()]; the [except] clause logs and raises again. *)
Definition __init__ : exception + TTSService :=
  match pyttsx3_init with
  | inl e => inl e
  | inr (e, vs) =>
      let e := set_rate_of e TTS_SPEED in
      let e := set_volume_of e TTS_VOLUME in
      let e :=
        if (1 <? Z.of_nat (length vs))%Z
        then match vs !! 1%nat with
             | Some v => set_voice_of e (voice_id v)
             | None => e
             end
        else e in
      inr {| engine := e; voices := vs |}
  end.

(** The dictionaries of [get_available_voices]: id, name and languages. *)
Definition get_available_voices (tts : TTSService)
  : list (string * string * list string) :=
  map (fun v => (voice_id v, voice_name v, voice_languages v)) (voices tts).

Definition set_voice (tts : TTSService) (voice_index : Z) : TTSService :=
  if ((0 <=? voice_index) && (voice_index <? Z.of_nat (length (voices tts))))%Z
  then match voices tts !! Z.to_nat voice_index with
       | Some v => {| engine := set_voice_of (engine tts) (voice_id v); voices := voices tts |}
       | None => tts
       end
  else tts.

Definition set_rate (tts : TTSService) (r : Z) : TTSService :=
  {| engine := set_rate_of (engine tts) r; voices := voices tts |}.

Definition set_volume (tts : TTSService) (v : Volume) : TTSService :=
  {| engine := set_volume_of (engine tts) v; voices := voices tts |}.

(** The path [text_to_speech] writes to. *)
Definition output_path_of (output_path : option string) : string :=
  let output_path :=
    match output_path with
    | Some p => if truthy p then p else path_join tmpdir "tts_output.wav"
    | None => path_join tmpdir "tts_output.wav"
    end in
  if endswith output_path ".wav" then output_path
  else replace ".mp3" ".wav" output_path.

Definition text_to_speech (tts : TTSService) (text : string) (output_path : option string)
    (fs : gmap string string)
  : (exception + string) * gmap string string :=
  let output_path := output_path_of output_path in
  let s := synthesize (engine tts) text output_path in
  let fs :=
    match written s with
    | Some audio => <[output_path := audio]> fs
    | None => fs
    end in
  match raised s with
  | Some msg => (inl (Exception ("Text-to-speech conversion failed: " +:+ msg)), fs)
  | None => (inr output_path, fs)
  end.

End Tts.

Arguments rate {Volume} _.
Arguments volume {Volume} _.
Arguments voice {Volume} _.
Arguments engine {Volume} _.
Arguments voices {Volume} _.

End TtsService.

(** ** [app.py]: the two audio endpoints *)

Module AudioApp.
Import PyPath SttService TtsService.

(** What an audio endpoint answers: the transcription, a file sent back,
    or an [HTTPException]. *)
Inductive AudioResponse : Type :=
  | TranscribeResponse (text : string)
  | FileResponse (path media_type filename : string)
  | HTTPError (status_code : nat) (detail : string).

Section Endpoints.

Variable Volume : Type.
Variable STT_LANGUAGE : string.
Variable tmpdir : string.
Variable recognize : option string -> string -> Recognition.
Variable synthesize : Engine Volume -> string -> string -> Synthesis.

(** [open(temp_path, "wb")]: the text of the exception when the file
    cannot be opened for writing. *)
Variable open_wb : string -> option string.

(** [f"temp_{audio.filename}"]; an upload may come without a file name. *)
Definition temp_name (filename : option string) : string :=
  "temp_" +:+ match filename with
              | Some name => name
              | None => "None"
              end.

(** [POST /transcribe]: the upload is saved under the temporary
    directory, transcribed, and the saved file removed. *)
Definition transcribe_audio (filename : option string) (content : string)
    (fs : gmap string string)
  : AudioResponse * gmap string string :=
  let temp_path := path_join tmpdir (temp_name filename) in
  match open_wb temp_path with
  | Some msg => (HTTPError 500 msg, fs)
  | None =>
      let fs := <[temp_path := content]> fs in
      match transcribe_audio_file STT_LANGUAGE recognize fs temp_path None with
      | inl (Exception msg) => (HTTPError 500 msg, fs)
      | inr text =>
          let fs := delete temp_path fs in
          match text with
          | Some t =>
              if truthy t then (TranscribeResponse t, fs)
              else (HTTPError 400 "Could not transcribe audio", fs)
          | None => (HTTPError 400 "Could not transcribe audio", fs)
          end
      end
  end.

(** [POST /speak] *)
Definition speak (tts : TTSService Volume) (text : string) (fs : gmap string string)
  : AudioResponse * gmap string string :=
  match text_to_speech Volume tmpdir synthesize tts text None fs with
  | (inl (Exception msg), fs) => (HTTPError 500 msg, fs)
  | (inr audio_path, fs) =>
      if truthy audio_path && bool_decide (is_Some (fs !! audio_path))
      then (FileResponse audio_path "audio/wav" "speech.wav", fs)
      else (HTTPError 500 "TTS generation failed", fs)
  end.

End Endpoints.

End AudioApp.

(** ** Instances for the audio services *)

Module DemoAudio.
Import SttService TtsService AudioApp.

(** A recognizer that hears "hello" in the bytes "speech", does not
    understand "noise", and cannot reach the service otherwise. *)
Definition demo_recognize : option string -> string -> Recognition :=
  fun content _ =>
    match content with
    | Some c =>
        if String.eqb c "speech" then Heard "hello"
        else if String.eqb c "noise" then UnknownValueError
        else RequestError "connection failed"
    | None => OtherError "no such file"
    end.

Definition demo_voices : list Voice :=
  [ {| voice_id := "v0"; voice_name := "David"; voice_languages := [] |};
    {| voice_id := "v1"; voice_name := "Zira"; voice_languages := [] |} ].

Definition demo_engine : Engine nat :=
  {| rate := 200%Z; volume := 10; voice := "v0" |}.

Definition demo_tts : TTSService nat :=
  {| engine := demo_engine; voices := demo_voices |}.

(** An engine that writes the text as the audio. *)
Definition demo_synthesize : Engine nat -> string -> string -> Synthesis :=
  fun _ text _ => {| raised := None; written := Some text |}.

(** An engine that returns without having written anything. *)
Definition silent_synthesize : Engine nat -> string -> string -> Synthesis :=
  fun _ _ _ => {| raised := None; written := None |}.

End DemoAudio.

(** ** Texts put together with a delimiter *)

Module Delimited.

(** [s] is the texts of [parts], each one whole and in the order of the
    list, with [sep] between every two neighbours and nothing before the
    first or after the last. *)
Inductive delimited (sep : string) : list string -> string -> Prop :=
  | delimited_none : delimited sep [] EmptyString
  | delimited_one (p : string) : delimited sep [p] p
  | delimited_more (p q : string) (rest : list string) (s : string) :
      delimited sep (q :: rest) s ->
      delimited sep (p :: q :: rest) (String.append p (String.append sep s)).

End Delimited.

(** * Properties *)

Module PyStrFacts.
Import PyStr.

Lemma append_nil_l (s : string) : String.append EmptyString s = s.
Proof. reflexivity. Qed.

Lemma append_cons_l (a : ascii) (s t : string) :
  String.append (String a s) t = String a (String.append s t).
Proof. reflexivity. Qed.

Lemma prefix_split (k t : string) :
  String.prefix k t = true <-> exists post, t = String.append k post.
Proof.
  revert t. induction k as [|a k IH]; intros t.
  - split; [intros _; exists t; reflexivity | intros _; destruct t; reflexivity].
  - destruct t as [|b t]; simpl.
    + split; [discriminate | intros [post H]; rewrite append_cons_l in H; discriminate].
    + destruct (Ascii.ascii_dec a b) as [->|Hne].
      * rewrite IH. split; intros [post H]; exists post.
        -- rewrite append_cons_l. now rewrite H.
        -- rewrite append_cons_l in H. now inversion H.
      * split; [discriminate |].
        intros [post H]. rewrite append_cons_l in H. inversion H. congruence.
Qed.

Lemma str_contains_nil (k : string) :
  str_contains k EmptyString = String.prefix k EmptyString || false.
Proof. reflexivity. Qed.

Lemma str_contains_cons (k : string) (c : ascii) (t : string) :
  str_contains k (String c t) = String.prefix k (String c t) || str_contains k t.
Proof. reflexivity. Qed.

Lemma str_contains_occurs (k t : string) :
  str_contains k t = true <-> occurs_in k t.
Proof.
  induction t as [|c t IH].
  - rewrite str_contains_nil, orb_false_r, prefix_split. split.
    + intros [post H]. exists EmptyString, post. exact H.
    + intros [pre [post H]]. destruct pre as [|d pre].
      * rewrite append_nil_l in H. now exists post.
      * rewrite append_cons_l in H. discriminate.
  - rewrite str_contains_cons, orb_true_iff, prefix_split, IH. split.
    + intros [[post H] | [pre [post H]]].
      * exists EmptyString, post. exact H.
      * exists (String c pre), post. rewrite append_cons_l. now rewrite H.
    + intros [pre [post H]]. destruct pre as [|d pre].
      * rewrite append_nil_l in H. left. now exists post.
      * rewrite append_cons_l in H. right. inversion H. now exists pre, post.
Qed.

End PyStrFacts.

(** ** The mood tagger *)

Module UtilsFacts.
Import PyStr PyStrFacts Utils.

Lemma any_in_mentions (keywords : list string) (t : string) :
  any_in keywords t = true <-> mentions keywords t.
Proof.
  unfold any_in, mentions. rewrite existsb_exists.
  split; intros [word [Hin Hw]]; exists word; split; try assumption;
    now apply str_contains_occurs.
Qed.

Lemma any_in_not_mentions (keywords : list string) (t : string) :
  any_in keywords t = false <-> ~ mentions keywords t.
Proof.
  rewrite <- any_in_mentions. destruct (any_in keywords t); split; intros H;
    try reflexivity; try discriminate; try (intros H'; discriminate).
  exfalso. now apply H.
Qed.

Lemma lower_char_idempotent (c : ascii) : lower_char (lower_char c) = lower_char c.
Proof. destruct c as [[] [] [] [] [] [] [] []]; reflexivity. Qed.

Lemma ascii_lower_idempotent (s : string) : ascii_lower (ascii_lower s) = ascii_lower s.
Proof.
  induction s as [|c s IH]; [reflexivity|].
  simpl. now rewrite lower_char_idempotent, IH.
Qed.

(** C10.  Whatever the text, [detect_emotion] returns one of the five mood
    names.  Which one is decided on the lower-cased text alone, by keywords
    occurring anywhere inside it (inside a longer word too), the categories
    being tried in the order happy, explaining, thinking, confused: the
    result is "happy" exactly when a happy keyword occurs, "explaining"
    exactly when no happy keyword but an explaining one occurs, and so on,
    "neutral" exactly when no keyword of any list occurs.  With the ASCII
    lower-casing a text and its lower-cased form get the same mood, and
    "YESTERDAY it was unclear" is happy ("yes" inside "yesterday" wins over
    "unclear"). *)
Theorem detect_emotion_classifies :
  (forall (lower : string -> string) (text : string),
      let t := lower text in
      let r := detect_emotion lower text in
      In r emotions
      /\ (r = "happy" <-> mentions happy_keywords t)
      /\ (r = "explaining" <->
            ~ mentions happy_keywords t /\ mentions explaining_keywords t)
      /\ (r = "thinking" <->
            ~ mentions happy_keywords t /\ ~ mentions explaining_keywords t
            /\ mentions thinking_keywords t)
      /\ (r = "confused" <->
            ~ mentions happy_keywords t /\ ~ mentions explaining_keywords t
            /\ ~ mentions thinking_keywords t /\ mentions confused_keywords t)
      /\ (r = "neutral" <->
            ~ mentions happy_keywords t /\ ~ mentions explaining_keywords t
            /\ ~ mentions thinking_keywords t /\ ~ mentions confused_keywords t))
  /\ (forall text,
        detect_emotion ascii_lower (ascii_lower text) = detect_emotion ascii_lower text)
  /\ detect_emotion ascii_lower "YESTERDAY it was unclear" = "happy"
  /\ detect_emotion ascii_lower "That MEANS I think so" = "explaining"
  /\ detect_emotion ascii_lower "Hmm, I am not sure" = "thinking"
  /\ detect_emotion ascii_lower "I cannot say" = "confused"
  /\ detect_emotion ascii_lower "Paris." = "neutral".
Proof.
  split; [|split; [|repeat split; reflexivity]].
  - intros lower text t r. subst r. unfold detect_emotion. fold t.
    rewrite <- !any_in_not_mentions, <- !any_in_mentions.
    destruct (any_in happy_keywords t);
      destruct (any_in explaining_keywords t);
      destruct (any_in thinking_keywords t);
      destruct (any_in confused_keywords t);
      (split; [unfold emotions; simpl; tauto|]);
      repeat split; intros; try discriminate; try tauto;
      repeat match goal with H : _ /\ _ |- _ => destruct H end; discriminate.
  - intros text. unfold detect_emotion. now rewrite ascii_lower_idempotent.
Qed.

End UtilsFacts.

(** ** The single-query path *)

Module QueryFacts.
Import PyStr Config RagService.

Section Query.

Variable Index : Type.
Variable settings : Settings.
Variable get_relevant_documents : Index -> nat -> string -> Result (list Document).
Variable llm_invoke : string -> Result string.

Local Abbreviation query := (RagService.query Index settings get_relevant_documents llm_invoke).

Lemma generations_app (tr1 tr2 : list Event) :
  generations (tr1 ++ tr2) = generations tr1 + generations tr2.
Proof. unfold generations. now rewrite List.filter_app, length_app. Qed.

(** When the retriever raises, the chat model is not invoked at all. *)
Lemma query_retrieval_error (w : World Index) (idx : Index) (question : string) (e : exn) :
  vectorstore (service w) = Some idx ->
  get_relevant_documents idx (RETRIEVAL_K settings) question = inl e ->
  fst (query question w) = inl e
  /\ generations (trace (snd (query question w))) = generations (trace w).
Proof.
  intros Hvs Hret. unfold RagService.query, bind, as_retriever, log, ret, raise.
  rewrite Hvs. simpl. rewrite Hret. simpl. split; [reflexivity|].
  rewrite generations_app. unfold generations. simpl. lia.
Qed.

(** The code's [join] puts the parts together with the separator. *)
Lemma join_delimited (sep : string) (parts : list string) :
  Delimited.delimited sep parts (join sep parts).
Proof.
  induction parts as [|p rest IH]; [constructor|].
  destruct rest as [|q rest]; [constructor|].
  change (join sep (p :: q :: rest))
    with (String.append p (String.append sep (join sep (q :: rest)))).
  now constructor.
Qed.

(** The parts and the separator determine the text. *)
Lemma delimited_unique (sep : string) (parts : list string) (s1 s2 : string) :
  Delimited.delimited sep parts s1 -> Delimited.delimited sep parts s2 -> s1 = s2.
Proof.
  intros H1. revert s2. induction H1; intros s2 H2; inversion H2; subst; try reflexivity.
  f_equal. f_equal. now apply IHdelimited.
Qed.

(** C8.  A query on a service with a vector store whose retriever returns
    [docs]: the prompt is the tutor instruction, then the context, then
    the question (under the labels Context, Question and a closing Answer
    cue), where the context is the page contents of [docs], each whole and
    in the order the retriever returned them, with a blank line between
    every two and nothing else; the retriever is called once and then the
    chat model once, with that prompt; the result is the content of the
    model's response, unchanged, with [docs] (or the model's exception);
    and the service object is left as it was. *)
Theorem query_single_shot
    (w : World Index) (idx : Index) (question : string) (docs : list Document) :
  vectorstore (service w) = Some idx ->
  get_relevant_documents idx (RETRIEVAL_K settings) question = inr docs ->
  exists context,
    Delimited.delimited "

" (map page_content docs) context
    /\ let prompt :=
         "You are a friendly AI tutor. Answer clearly and concisely.

Context: " +:+ context +:+ "

Question: " +:+ question +:+ "

Answer:" in
       trace (snd (query question w)) =
         (trace w ++ [Retrieved (RETRIEVAL_K settings) question; Generated prompt])%list
       /\ generations (trace (snd (query question w))) = generations (trace w) + 1
       /\ fst (query question w) =
            match llm_invoke prompt with
            | inl e => inl e
            | inr content => inr (content, docs)
            end
       /\ service (snd (query question w)) = service w.
Proof.
  intros Hvs Hret.
  exists (join "

" (map page_content docs)).
  split; [apply join_delimited|]. intros prompt.
  assert (Hrun : query question w =
                 (match llm_invoke prompt with
                  | inl e => inl e
                  | inr content => inr (content, docs)
                  end,
                  {| service := service w;
                     trace := (trace w ++ [Retrieved (RETRIEVAL_K settings) question;
                                           Generated prompt])%list |})).
  { unfold RagService.query, bind, as_retriever, log, ret, raise.
    rewrite Hvs. simpl. rewrite Hret. simpl.
    fold prompt. unfold build_prompt. fold prompt.
    rewrite <- app_assoc. simpl.
    destruct (llm_invoke prompt); reflexivity. }
  rewrite Hrun. simpl. repeat split.
  rewrite generations_app. reflexivity.
Qed.

End Query.

Lemma query_single_shot_witness :
  trace (snd (RagService.query nat default_settings Demo.demo_retriever Demo.demo_llm
                "What is Python?" Demo.demo_world))
  = [Retrieved 3 "What is Python?";
     Generated "You are a friendly AI tutor. Answer clearly and concisely.

Context: Python is a language.

ML uses data.

Question: What is Python?

Answer:"]
  /\ fst (RagService.query nat default_settings Demo.demo_retriever Demo.demo_llm
            "What is Python?" Demo.demo_world)
     = inr ("A language.", Demo.demo_docs).
Proof.
  destruct (query_single_shot nat default_settings Demo.demo_retriever Demo.demo_llm
              Demo.demo_world 0 "What is Python?" Demo.demo_docs eq_refl eq_refl)
    as [context [Hctx [Htrace [_ [Hres _]]]]].
  assert (Hc : context = "Python is a language.

ML uses data.").
  { apply (delimited_unique "

" (map page_content Demo.demo_docs)); [exact Hctx|].
    exact (Delimited.delimited_more _ "Python is a language." "ML uses data." [] _
             (Delimited.delimited_one _ _)). }
  subst context. split; [exact Htrace | exact Hres].
Defined.

End QueryFacts.

(** ** The conversational path and the session memories *)

Module ChatFacts.
Import Config RagService.

Section Chat.

Variable Index : Type.
Variable settings : Settings.
Variable qa_chain :
  Index -> nat -> ConversationBufferMemory -> string ->
  ConversationBufferMemory * Result ChainOutput.

Local Abbreviation chat := (RagService.chat Index settings qa_chain).

(** One chat call on a service with a vector store, written out. *)
Lemma chat_step (w : World Index) (idx : Index) (question : string) (sid : option string) :
  vectorstore (service w) = Some idx ->
  chat question sid w =
    (match snd (qa_chain idx (RETRIEVAL_K settings) (session_memory (service w) sid) question) with
     | inl e => inl e
     | inr out => inr (answer out, default [] (source_documents out))
     end,
     {| service :=
          {| vectorstore := Some idx;
             chat_memories :=
               <[sid := fst (qa_chain idx (RETRIEVAL_K settings)
                               (session_memory (service w) sid) question)]>
                 (chat_memories (service w)) |};
        trace := (trace w ++ [ChainCalled (RETRIEVAL_K settings) question])%list |}).
Proof.
  intros Hvs.
  unfold RagService.chat, bind, ensure_memory, as_retriever, call_chain, ret, raise, session_memory.
  destruct (chat_memories (service w) !! sid) as [memory|] eqn:Hsid; simpl;
    rewrite Hvs; simpl.
  - rewrite Hsid.
    destruct (qa_chain idx (RETRIEVAL_K settings) memory question) as [memory' [e|out]];
      simpl; rewrite ?Hvs; reflexivity.
  - rewrite lookup_insert_eq.
    destruct (qa_chain idx (RETRIEVAL_K settings) new_memory question) as [memory' [e|out]];
      simpl; rewrite ?Hvs, insert_insert_eq; reflexivity.
Qed.

(** Without a vector store the call raises after the session was looked
    up; a new session is then stored with no messages. *)
Lemma chat_no_store (w : World Index) (question : string) (sid : option string) :
  vectorstore (service w) = None ->
  exists e,
    fst (chat question sid w) = inl e
    /\ chat_memories (service (snd (chat question sid w))) =
         <[sid := session_memory (service w) sid]> (chat_memories (service w)).
Proof.
  intros Hvs. eexists.
  unfold RagService.chat, bind, ensure_memory, as_retriever, ret, raise, session_memory.
  destruct (chat_memories (service w) !! sid) as [memory|] eqn:Hsid; simpl;
    rewrite Hvs; simpl; split; try reflexivity.
  now rewrite insert_id.
Qed.

Lemma chat_other_session (w : World Index) (question : string) (A B : option string) :
  A <> B ->
  chat_memories (service (snd (chat question A w))) !! B = chat_memories (service w) !! B.
Proof.
  intros Hne.
  destruct (vectorstore (service w)) as [idx|] eqn:Hvs.
  - rewrite (chat_step w idx question A Hvs). simpl. now rewrite lookup_insert_ne.
  - destruct (chat_no_store w question A Hvs) as [e [_ Hm]].
    rewrite Hm. now rewrite lookup_insert_ne.
Qed.

(** C7.  Whatever the chain does with the memory it is given: a chat call
    on session [A] leaves the memory stored for any other session [B], and
    so [B]'s history, exactly as it was; the chain is given the memory
    stored under [A], or a new memory with no messages when [A] was never
    referred to before; and the memory as the chain leaves it is the one
    stored under [A] afterwards, which is what the next call on [A] gets. *)
Theorem chat_session_isolation
    (w : World Index) (idx : Index) (question : string) (A B : option string) :
  vectorstore (service w) = Some idx ->
  A <> B ->
  let w' := snd (chat question A w) in
  chat_memories (service w') !! B = chat_memories (service w) !! B
  /\ history_of (service w') B = history_of (service w) B
  /\ (chat_memories (service w) !! A = None ->
      chat_memory (session_memory (service w) A) = [])
  /\ (forall memory, chat_memories (service w) !! A = Some memory ->
      session_memory (service w) A = memory)
  /\ chat_memories (service w') !! A =
       Some (fst (qa_chain idx (RETRIEVAL_K settings) (session_memory (service w) A) question))
  /\ session_memory (service w') A =
       fst (qa_chain idx (RETRIEVAL_K settings) (session_memory (service w) A) question).
Proof.
  intros Hvs Hne w'.
  assert (HB : chat_memories (service w') !! B = chat_memories (service w) !! B)
    by (now apply chat_other_session).
  assert (HA : chat_memories (service w') !! A =
               Some (fst (qa_chain idx (RETRIEVAL_K settings)
                            (session_memory (service w) A) question))).
  { subst w'. rewrite (chat_step w idx question A Hvs). simpl. apply lookup_insert_eq. }
  repeat split.
  - exact HB.
  - unfold history_of. now rewrite HB.
  - intros HN. unfold session_memory. now rewrite HN.
  - intros memory HS. unfold session_memory. now rewrite HS.
  - exact HA.
  - unfold session_memory at 1. now rewrite HA.
Qed.

End Chat.

(** *** With the chain's memory discipline *)

Section ChatWithMemory.

Variable Index : Type.
Variable settings : Settings.
Variable lower : string -> string.
Variable run : Index -> nat -> list Message -> string -> Result ChainOutput.

Local Abbreviation qa := (LangChain.chain_call Index run).
Local Abbreviation chat := (RagService.chat Index settings qa).
Local Abbreviation chats := (RagService.chats Index settings qa).

Lemma history_of_session_memory (svc : RAGService Index) (sid : option string) :
  chat_memory (session_memory svc sid) = history_of svc sid.
Proof.
  unfold session_memory, history_of. now destruct (chat_memories svc !! sid).
Qed.

Lemma history_of_insert (svc : RAGService Index) (sid sid' : option string)
    (memory : ConversationBufferMemory) :
  history_of {| vectorstore := vectorstore svc;
                chat_memories := <[sid := memory]> (chat_memories svc) |} sid'
  = if decide (sid = sid') then chat_memory memory else history_of svc sid'.
Proof.
  unfold history_of. simpl. rewrite lookup_insert. now destruct (decide (sid = sid')).
Qed.

(** A call whose run raises: the exception is the result, no history changes. *)
Lemma chat_failed (w : World Index) (idx : Index) (question : string)
    (sid : option string) (e : exn) :
  vectorstore (service w) = Some idx ->
  run idx (RETRIEVAL_K settings) (history_of (service w) sid) question = inl e ->
  fst (chat question sid w) = inl e
  /\ vectorstore (service (snd (chat question sid w))) = Some idx
  /\ forall sid', history_of (service (snd (chat question sid w))) sid'
                  = history_of (service w) sid'.
Proof.
  intros Hvs Hrun. rewrite (chat_step Index settings qa w idx question sid Hvs).
  unfold LangChain.chain_call. rewrite history_of_session_memory, Hrun. simpl.
  repeat split. intros sid'.
  pose proof (history_of_insert {| vectorstore := Some idx;
                                   chat_memories := chat_memories (service w) |}
                sid sid' (session_memory (service w) sid)) as Hins.
  simpl in Hins. rewrite Hins. destruct (decide (sid = sid')) as [<-|Hne].
  - apply history_of_session_memory.
  - reflexivity.
Qed.

(** A call whose run returns: the turn is appended to the session. *)
Lemma chat_answered (w : World Index) (idx : Index) (question : string)
    (sid : option string) (out : ChainOutput) :
  vectorstore (service w) = Some idx ->
  run idx (RETRIEVAL_K settings) (history_of (service w) sid) question = inr out ->
  fst (chat question sid w) = inr (answer out, default [] (source_documents out))
  /\ vectorstore (service (snd (chat question sid w))) = Some idx
  /\ history_of (service (snd (chat question sid w))) sid
     = (history_of (service w) sid ++ [HumanMessage question; AIMessage (answer out)])%list
  /\ forall sid', sid <> sid' ->
       history_of (service (snd (chat question sid w))) sid' = history_of (service w) sid'.
Proof.
  intros Hvs Hrun. rewrite (chat_step Index settings qa w idx question sid Hvs).
  unfold LangChain.chain_call. rewrite history_of_session_memory, Hrun. simpl.
  repeat split.
  - pose proof (history_of_insert {| vectorstore := Some idx;
                                     chat_memories := chat_memories (service w) |}
                  sid sid (LangChain.save_context (session_memory (service w) sid)
                             question (answer out))) as Hins.
    simpl in Hins. rewrite Hins. rewrite decide_True by reflexivity.
    simpl. now rewrite history_of_session_memory.
  - intros sid' Hne.
    pose proof (history_of_insert {| vectorstore := Some idx;
                                     chat_memories := chat_memories (service w) |}
                  sid sid' (LangChain.save_context (session_memory (service w) sid)
                             question (answer out))) as Hins.
    simpl in Hins. rewrite Hins. now rewrite decide_False by assumption.
Qed.

Lemma chat_cases (w : World Index) (idx : Index) (question : string) (sid : option string) :
  vectorstore (service w) = Some idx ->
  (exists e, run idx (RETRIEVAL_K settings) (history_of (service w) sid) question = inl e)
  \/ (exists out, run idx (RETRIEVAL_K settings) (history_of (service w) sid) question = inr out).
Proof.
  intros _. destruct (run idx (RETRIEVAL_K settings) (history_of (service w) sid) question);
    [left | right]; eexists; reflexivity.
Qed.

(** A run of calls that all returned: one turn per call, in call order. *)
Lemma chats_history (questions : list string) (sid : option string) :
  forall (w wN : World Index) (idx : Index) (replies : list string),
    vectorstore (service w) = Some idx ->
    chats questions sid w = (inr replies, wN) ->
    vectorstore (service wN) = Some idx
    /\ length replies = length questions
    /\ history_of (service wN) sid
       = (history_of (service w) sid
          ++ LangChain.messages_of (combine questions replies))%list
    /\ forall sid', sid <> sid' -> history_of (service wN) sid' = history_of (service w) sid'.
Proof.
  induction questions as [|q rest IH]; intros w wN idx replies Hvs Hrun.
  - simpl in Hrun. unfold ret in Hrun. inversion Hrun; subst.
    repeat split; try assumption. simpl. now rewrite app_nil_r.
  - simpl in Hrun. unfold bind at 1 in Hrun.
    destruct (chat_cases w idx q sid Hvs) as [[e He] | [out Hout]].
    + destruct (chat_failed w idx q sid e Hvs He) as [Hr _].
      destruct (chat q sid w) as [r w1]. simpl in Hr. subst r. discriminate.
    + destruct (chat_answered w idx q sid out Hvs Hout) as [Hr [Hvs1 [Hh Ho]]].
      destruct (chat q sid w) as [r w1]. simpl in Hr, Hvs1, Hh, Ho. subst r.
      unfold bind in Hrun.
      destruct (chats rest sid w1) as [[e|replies'] w2] eqn:Hrest; [discriminate|].
      unfold ret in Hrun. inversion Hrun; subst.
      destruct (IH w1 wN idx replies' Hvs1 Hrest) as [HvsN [Hlen [HhN HoN]]].
      repeat split.
      * exact HvsN.
      * simpl. now rewrite Hlen.
      * rewrite HhN, Hh. simpl. now rewrite <- app_assoc.
      * intros sid' Hne. rewrite (HoN sid' Hne). now apply Ho.
Qed.

(** C1.  On a service with a vector store, let [N] chat calls on a session
    all return, with answers [replies], and let the chain's run (its
    condensing, retrieval and generation) then raise [e] on the next
    question.  That call raises [e] to its caller, and the chat endpoint
    answers with the HTTP error 500 whose detail is the text of [e]; the
    call leaves the history of every session as it was before it; and the
    session's history is what it was at the start followed by exactly the
    [N] turns of the calls that returned, question and answer, in call
    order. *)
Theorem chat_failure_keeps_history
    (w0 wN : World Index) (idx : Index) (sid : option string)
    (questions replies : list string) (question : string) (e : exn) :
  vectorstore (service w0) = Some idx ->
  chats questions sid w0 = (inr replies, wN) ->
  run idx (RETRIEVAL_K settings) (history_of (service wN) sid) question = inl e ->
  let w' := snd (chat question sid wN) in
  fst (chat question sid wN) = inl e
  /\ fst (App.chat_endpoint Index settings lower qa
            {| Models.chat_question := question; Models.session_id := sid |} wN)
     = Models.HTTPException 500 (str_of_exn e)
  /\ (forall sid', history_of (service w') sid' = history_of (service wN) sid')
  /\ history_of (service w') sid
     = (history_of (service w0) sid
        ++ LangChain.messages_of (combine questions replies))%list
  /\ length (combine questions replies) = length questions.
Proof.
  intros Hvs Hrun Hfail w'.
  destruct (chats_history questions sid w0 wN idx replies Hvs Hrun)
    as [HvsN [Hlen [Hh _]]].
  destruct (chat_failed wN idx question sid e HvsN Hfail) as [Hr [_ Hsame]].
  repeat split.
  - exact Hr.
  - unfold App.chat_endpoint. simpl.
    destruct (chat question sid wN) as [r w1]. simpl in Hr. now subst r.
  - exact Hsame.
  - subst w'. now rewrite Hsame.
  - rewrite length_combine, Hlen. apply Nat.min_id.
Qed.

End ChatWithMemory.

Lemma chat_session_isolation_witness :
  history_of (service (snd (RagService.chat nat default_settings Demo.demo_chain
                              "What is ML?" (Some "s1") Demo.demo_world_2))) (Some "s2")
  = history_of (service Demo.demo_world_2) (Some "s2").
Proof.
  refine (proj1 (proj2
    (chat_session_isolation nat default_settings Demo.demo_chain
       Demo.demo_world_2 0 "What is ML?" (Some "s1") (Some "s2") _ _))).
  - vm_compute. reflexivity.
  - discriminate.
Defined.

Lemma chat_failure_keeps_history_witness :
  history_of (service (snd (RagService.chat nat default_settings Demo.demo_chain
                              "boom" (Some "s1") Demo.demo_world_2))) (Some "s1")
  = [HumanMessage "What is ML?"; AIMessage "A language.";
     HumanMessage "Give an example"; AIMessage "A language."].
Proof.
  refine (proj1 (proj2 (proj2 (proj2
    (chat_failure_keeps_history nat default_settings PyStr.ascii_lower Demo.demo_run
       Demo.demo_world Demo.demo_world_2 0 (Some "s1")
       Demo.demo_questions ["A language."; "A language."] "boom"
       (LibraryError "generation failed") _ _ _))))).
  - reflexivity.
  - vm_compute. reflexivity.
  - vm_compute. reflexivity.
Defined.

End ChatFacts.

(** ** Start-up *)

Module StartupFacts.
Import Config RagService.

Section Startup.

Variable Index : Type.
Variable settings : Settings.
Variable init_llm : Result unit.
Variable init_embeddings : Result unit.
Variable loader_load : Files -> Result (list Document).
Variable split_documents : nat -> nat -> list Document -> Result (list Document).
Variable chroma_from_documents :
  list Document -> option Index -> Result Index * option Index.

Local Abbreviation new_service :=
  (RagService.__init__ Index settings init_llm init_embeddings loader_load
     split_documents chroma_from_documents).

(** A persisted index is loaded as it is; the documents are not looked at. *)
Lemma existing_index_is_loaded (fs : FileSystem Index) (idx : Index) :
  init_llm = inr tt -> init_embeddings = inr tt ->
  vector_db fs = Some idx ->
  new_service fs = (inr {| vectorstore := Some idx; chat_memories := ∅ |}, fs).
Proof.
  intros Hl He Hdb.
  unfold RagService.__init__, _initialize, _load_vector_store.
  now rewrite Hl, He, Hdb.
Qed.

(** C6.  The clients being built, when no persisted index exists and the
    loader finds no document, constructing the service raises the
    [ValueError] "No documents found in data directory": no service
    object comes into being (the module that constructs it fails to load),
    and the persist location still holds no index. *)
Theorem empty_corpus_is_fatal (fs : FileSystem Index) :
  init_llm = inr tt -> init_embeddings = inr tt ->
  vector_db fs = None ->
  loader_load (corpus_files fs) = inr [] ->
  fst (new_service fs) = inl (ValueError "No documents found in data directory")
  /\ vector_db (snd (new_service fs)) = None
  /\ data_dir (snd (new_service fs)) = Some (corpus_files fs).
Proof.
  intros Hl He Hdb Hload.
  unfold RagService.__init__, _initialize, _load_vector_store, _create_vector_store.
  rewrite Hl, He, Hdb. unfold corpus_files in *.
  destruct (data_dir fs) as [files|] eqn:Hdir; simpl;
    rewrite ?Hdir; simpl; rewrite Hload; simpl; rewrite ?Hdb, ?Hdir;
    repeat split; reflexivity.
Qed.

End Startup.

(** A data directory that did not exist is filled with the three samples,
    stripped of the blank space around them, before the loader runs. *)
Example missing_data_dir_gets_samples :
  map (fun '(name, content) => (name, String.length content))
      (corpus_files {| vector_db := @None nat; data_dir := None |})
  = [("python_basics.txt", 482); ("machine_learning.txt", 401); ("data_structures.txt", 321)].
Proof. vm_compute. reflexivity. Qed.

Lemma empty_corpus_is_fatal_witness :
  fst (RagService.__init__ nat default_settings (inr tt) (inr tt) Demo.demo_loader
         (fun _ _ docs => inr docs) (fun _ _ => (inr 0, Some 0)) Demo.demo_fs)
  = inl (ValueError "No documents found in data directory").
Proof.
  refine (proj1
    (empty_corpus_is_fatal nat default_settings (inr tt) (inr tt) Demo.demo_loader
       (fun _ _ docs => inr docs) (fun _ _ => (inr 0, Some 0)) Demo.demo_fs _ _ _ _));
    reflexivity.
Defined.

End StartupFacts.

(** ** The endpoints *)

Module AppFacts.
Import Config RagService Models App.

Section Endpoints.

Variable Index : Type.
Variable settings : Settings.
Variable lower : string -> string.
Variable get_relevant_documents : Index -> nat -> string -> Result (list Document).
Variable llm_invoke : string -> Result string.
Variable qa_chain :
  Index -> nat -> ConversationBufferMemory -> string ->
  ConversationBufferMemory * Result ChainOutput.

Local Abbreviation post_query :=
  (App.post_query Index settings lower get_relevant_documents llm_invoke).
Local Abbreviation post_chat := (App.post_chat Index settings lower qa_chain).

Lemma validate_question_nonempty (f : JsonField) (q : string) :
  validate_question f = inr q -> f = JStr q /\ 1 <= String.length q.
Proof.
  destruct f as [| |s]; unfold validate_question; try discriminate.
  destruct (1 <=? String.length s)%nat eqn:Hlen; [|discriminate].
  intros H. inversion H; subst. split; [reflexivity|].
  now apply Nat.leb_le.
Qed.

Lemma validate_question_rejects (f : JsonField) :
  f = Absent \/ f = JNull \/ f = JStr EmptyString ->
  exists err, validate_question f = inl err.
Proof. intros [-> | [-> | ->]]; eexists; reflexivity. Qed.

(** C9.  A body whose question is absent, null or the empty string is
    answered by both endpoints with the validation error, and the world is
    exactly as before: no retrieval, no generation, no chain call was
    made and no session was created.  And whenever a body validates, the
    question the endpoint function receives has at least one character. *)
Theorem empty_question_is_rejected (body : RawBody) (w : World Index) :
  raw_question body = Absent \/ raw_question body = JNull \/ raw_question body = JStr EmptyString ->
  (exists err, post_query body w = (Unprocessable err, w)
               /\ post_chat body w = (Unprocessable err, w))
  /\ (forall body' request, validate_QueryRequest body' = inr request ->
        1 <= String.length (question request))
  /\ (forall body' request, validate_ChatRequest body' = inr request ->
        1 <= String.length (chat_question request)).
Proof.
  intros Hq. split; [|split].
  - destruct (validate_question_rejects _ Hq) as [err Herr]. exists err.
    unfold App.post_query, App.post_chat, validate_QueryRequest, validate_ChatRequest.
    now rewrite Herr.
  - intros body' request. unfold validate_QueryRequest.
    destruct (validate_question (raw_question body')) as [err|q] eqn:Hv; [discriminate|].
    intros H. inversion H; subst. simpl. now apply (validate_question_nonempty _ _ Hv).
  - intros body' request. unfold validate_ChatRequest.
    destruct (validate_question (raw_question body')) as [err|q] eqn:Hv; [discriminate|].
    intros H. inversion H; subst. simpl. now apply (validate_question_nonempty _ _ Hv).
Qed.

End Endpoints.

Lemma empty_question_is_rejected_witness :
  exists err,
    App.post_query nat default_settings PyStr.ascii_lower Demo.demo_retriever Demo.demo_llm
      {| raw_question := JStr EmptyString; raw_session_id := Absent |} Demo.demo_world
    = (Unprocessable err, Demo.demo_world)
    /\ App.post_chat nat default_settings PyStr.ascii_lower Demo.demo_chain
         {| raw_question := JStr EmptyString; raw_session_id := Absent |} Demo.demo_world
       = (Unprocessable err, Demo.demo_world).
Proof.
  refine (proj1
    (empty_question_is_rejected nat default_settings PyStr.ascii_lower
       Demo.demo_retriever Demo.demo_llm Demo.demo_chain
       {| raw_question := JStr EmptyString; raw_session_id := Absent |} Demo.demo_world _)).
  right. right. reflexivity.
Defined.

End AppFacts.

(** * Further properties of the service *)

Module ServiceProps.
Import PyStr Config RagService.

Section Requests.

Variable Index : Type.
Variable settings : Settings.
Variable get_relevant_documents : Index -> nat -> string -> Result (list Document).
Variable llm_invoke : string -> Result string.

Local Abbreviation query := (RagService.query Index settings get_relevant_documents llm_invoke).

(** The three ways a query can go, written out. *)
Lemma query_cases (w : World Index) (question : string) :
  (vectorstore (service w) = None
   /\ query question w
      = (inl (AttributeError "'NoneType' object has no attribute 'as_retriever'"), w))
  \/ (exists idx e,
        vectorstore (service w) = Some idx
        /\ get_relevant_documents idx (RETRIEVAL_K settings) question = inl e
        /\ query question w
           = (inl e, {| service := service w;
                        trace := (trace w ++ [Retrieved (RETRIEVAL_K settings) question])%list |}))
  \/ (exists idx docs,
        vectorstore (service w) = Some idx
        /\ get_relevant_documents idx (RETRIEVAL_K settings) question = inr docs
        /\ let prompt := build_prompt (join "

" (map page_content docs)) question in
           query question w
           = (match llm_invoke prompt with
              | inl e => inl e
              | inr content => inr (content, docs)
              end,
              {| service := service w;
                 trace := (trace w ++ [Retrieved (RETRIEVAL_K settings) question;
                                       Generated prompt])%list |})).
Proof.
  unfold RagService.query, bind, as_retriever, log, ret, raise.
  destruct (vectorstore (service w)) as [idx|] eqn:Hvs.
  - destruct (get_relevant_documents idx (RETRIEVAL_K settings) question) as [e|docs] eqn:Hret.
    + right. left. exists idx, e. simpl. rewrite Hret. auto.
    + right. right. exists idx, docs. simpl. rewrite Hret. simpl.
      repeat split. rewrite <- app_assoc. simpl.
      destruct (llm_invoke _); reflexivity.
  - left. auto.
Qed.

(** X1.  When the retriever raises, [query] raises the same exception: the
    retriever was called once, the chat model not at all, and the service
    object is as before. *)
Theorem query_retriever_raises
    (w : World Index) (idx : Index) (question : string) (e : exn) :
  vectorstore (service w) = Some idx ->
  get_relevant_documents idx (RETRIEVAL_K settings) question = inl e ->
  fst (query question w) = inl e
  /\ trace (snd (query question w))
     = (trace w ++ [Retrieved (RETRIEVAL_K settings) question])%list
  /\ generations (trace (snd (query question w))) = generations (trace w)
  /\ service (snd (query question w)) = service w.
Proof.
  intros Hvs Hret.
  destruct (query_cases w question) as [[Hn _] | [(i & e' & Hi & He & Hq) | (i & d & Hi & Hd & _)]].
  - congruence.
  - rewrite Hvs in Hi. inversion Hi; subst i. rewrite Hret in He. inversion He; subst e'.
    rewrite Hq. simpl. repeat split.
    unfold generations. rewrite List.filter_app, length_app. simpl. lia.
  - rewrite Hvs in Hi. inversion Hi; subst i. congruence.
Qed.

(** X2.  Whatever the collaborators do, a query leaves the service object
    (the vector store handle and every session memory) as it was, and what
    it adds to the trace is nothing, or one retrieval of RETRIEVAL_K
    documents for the question, or that retrieval followed by one
    invocation of the chat model: never a second retrieval, never an
    invocation before or without the retrieval.  Nothing is added exactly
    when the service has no vector store, and the model is invoked exactly
    when the retriever returned. *)
Theorem query_is_read_only (w : World Index) (question : string) :
  service (snd (query question w)) = service w
  /\ exists events,
       trace (snd (query question w)) = (trace w ++ events)%list
       /\ length events <= 2
       /\ generations events <= 1
       /\ (events = []
           \/ events = [Retrieved (RETRIEVAL_K settings) question]
           \/ exists prompt,
                events = [Retrieved (RETRIEVAL_K settings) question; Generated prompt])
       /\ (events = [] <-> vectorstore (service w) = None)
       /\ (forall idx, vectorstore (service w) = Some idx ->
             ((exists prompt,
                 events = [Retrieved (RETRIEVAL_K settings) question; Generated prompt])
              <-> exists docs,
                    get_relevant_documents idx (RETRIEVAL_K settings) question = inr docs)).
Proof.
  destruct (query_cases w question)
    as [[Hn Hq] | [(i & e & Hi & He & Hq) | (i & d & Hi & Hd & Hq)]].
  - rewrite Hq. simpl. split; [reflexivity|]. exists []. rewrite app_nil_r.
    split; [reflexivity|]. split; [simpl; lia|]. split; [unfold generations; simpl; lia|].
    split; [now left|]. split; [tauto|].
    intros idx Hidx. congruence.
  - rewrite Hq. simpl. split; [reflexivity|].
    exists [Retrieved (RETRIEVAL_K settings) question].
    split; [reflexivity|]. split; [simpl; lia|]. split; [unfold generations; simpl; lia|].
    split; [right; now left|]. split.
    + split; [discriminate | congruence].
    + intros idx Hidx. rewrite Hi in Hidx. inversion Hidx; subst idx. split.
      * intros [prompt H]. discriminate.
      * intros [docs H]. congruence.
  - simpl in Hq. rewrite Hq. simpl. split; [reflexivity|].
    eexists. split; [reflexivity|]. split; [simpl; lia|].
    split; [unfold generations; simpl; lia|].
    split; [right; right; eexists; reflexivity|]. split.
    + split; [discriminate | congruence].
    + intros idx Hidx. rewrite Hi in Hidx. inversion Hidx; subst idx. split.
      * intros _. now exists d.
      * intros _. eexists. reflexivity.
Qed.

End Requests.

Section ChatRequests.

Variable Index : Type.
Variable settings : Settings.
Variable qa_chain :
  Index -> nat -> ConversationBufferMemory -> string ->
  ConversationBufferMemory * Result ChainOutput.

Local Abbreviation chat := (RagService.chat Index settings qa_chain).

(** X3.  Whatever the chain does and whether or not the call raises, a chat
    call leaves the session it was made on registered, removes no session,
    and does not touch the vector store handle. *)
Theorem chat_keeps_sessions (w : World Index) (question : string) (sid : option string) :
  let w' := snd (chat question sid w) in
  sid ∈ dom (chat_memories (service w'))
  /\ dom (chat_memories (service w)) ⊆ dom (chat_memories (service w'))
  /\ vectorstore (service w') = vectorstore (service w).
Proof.
  intros w'. subst w'.
  destruct (vectorstore (service w)) as [idx|] eqn:Hvs.
  - rewrite (ChatFacts.chat_step Index settings qa_chain w idx question sid Hvs). simpl.
    rewrite dom_insert_L. repeat split; set_solver.
  - destruct (ChatFacts.chat_no_store Index settings qa_chain w question sid Hvs)
      as [e [_ Hm]].
    rewrite Hm, dom_insert_L. repeat split; try set_solver.
    unfold RagService.chat, bind, ensure_memory, as_retriever, ret, raise.
    destruct (chat_memories (service w) !! sid); simpl; rewrite Hvs; simpl; now rewrite ?Hvs.
Qed.

(** X4.  On a service with a vector store, [chat] returns what the chain
    returned for the stored memory of the session: the chain's exception
    unchanged, or its answer with its source documents, and with the empty
    list when the chain's output carries no source documents.  The chain is
    called once. *)
Theorem chat_returns_chain_result
    (w : World Index) (idx : Index) (question : string) (sid : option string) :
  vectorstore (service w) = Some idx ->
  let r := snd (qa_chain idx (RETRIEVAL_K settings) (session_memory (service w) sid) question) in
  (forall e, r = inl e -> fst (chat question sid w) = inl e)
  /\ (forall reply docs,
        r = inr {| answer := reply; source_documents := Some docs |} ->
        fst (chat question sid w) = inr (reply, docs))
  /\ (forall reply,
        r = inr {| answer := reply; source_documents := None |} ->
        fst (chat question sid w) = inr (reply, []))
  /\ trace (snd (chat question sid w))
     = (trace w ++ [ChainCalled (RETRIEVAL_K settings) question])%list.
Proof.
  intros Hvs r. subst r.
  rewrite (ChatFacts.chat_step Index settings qa_chain w idx question sid Hvs). simpl.
  repeat split; intros; match goal with H : _ = _ |- _ => now rewrite H end.
Qed.

End ChatRequests.

Lemma query_retriever_raises_witness :
  fst (RagService.query nat default_settings
         (fun _ _ _ => inl (LibraryError "index unavailable")) Demo.demo_llm
         "What is Python?" Demo.demo_world)
  = inl (LibraryError "index unavailable").
Proof.
  refine (proj1
    (query_retriever_raises nat default_settings
       (fun _ _ _ => inl (LibraryError "index unavailable")) Demo.demo_llm
       Demo.demo_world 0 "What is Python?" (LibraryError "index unavailable") _ _));
    reflexivity.
Defined.

Lemma chat_returns_chain_result_witness :
  fst (RagService.chat nat default_settings Demo.demo_chain "What is ML?" (Some "s1")
         Demo.demo_world)
  = inr ("A language.", Demo.demo_docs).
Proof.
  refine (proj1 (proj2
    (chat_returns_chain_result nat default_settings Demo.demo_chain
       Demo.demo_world 0 "What is ML?" (Some "s1") _)) "A language." Demo.demo_docs _).
  - reflexivity.
  - vm_compute. reflexivity.
Defined.

End ServiceProps.

(** * Further properties of start-up *)

Module StartupProps.
Import PyStr Config RagService.

Section Startup.

Variable Index : Type.
Variable settings : Settings.
Variable init_llm : Result unit.
Variable init_embeddings : Result unit.
Variable loader_load : Files -> Result (list Document).
Variable split_documents : nat -> nat -> list Document -> Result (list Document).
Variable chroma_from_documents :
  list Document -> option Index -> Result Index * option Index.

Local Abbreviation new_service :=
  (RagService.__init__ Index settings init_llm init_embeddings loader_load
     split_documents chroma_from_documents).
Local Abbreviation create_vector_store :=
  (RagService._create_vector_store Index settings loader_load
     split_documents chroma_from_documents).

(** The fresh build, by the outcome of its steps. *)
Lemma create_vector_store_cases (fs : FileSystem Index) :
  let fs1 := {| vector_db := vector_db fs; data_dir := Some (corpus_files fs) |} in
  create_vector_store fs =
  match loader_load (corpus_files fs) with
  | inl e => (inl e, fs1)
  | inr [] => (inl (ValueError "No documents found in data directory"), fs1)
  | inr (d :: ds) =>
      match split_documents (CHUNK_SIZE settings) (CHUNK_OVERLAP settings) (d :: ds) with
      | inl e => (inl e, fs1)
      | inr splits =>
          (fst (chroma_from_documents splits (vector_db fs)),
           {| vector_db := snd (chroma_from_documents splits (vector_db fs));
              data_dir := Some (corpus_files fs) |})
      end
  end.
Proof.
  unfold RagService._create_vector_store, corpus_files.
  destruct fs as [db [files|]]; simpl.
  - destruct (loader_load files) as [e|[|d ds]]; try reflexivity.
    destruct (split_documents _ _ _) as [e|splits]; try reflexivity.
    now destruct (chroma_from_documents splits db).
  - destruct (loader_load _) as [e|[|d ds]]; try reflexivity.
    destruct (split_documents _ _ _) as [e|splits]; try reflexivity.
    now destruct (chroma_from_documents splits db).
Qed.

Lemma new_service_fresh (fs : FileSystem Index) :
  init_llm = inr tt -> init_embeddings = inr tt -> vector_db fs = None ->
  new_service fs =
  match create_vector_store fs with
  | (inl e, fs') => (inl e, fs')
  | (inr idx, fs') => (inr {| vectorstore := Some idx; chat_memories := ∅ |}, fs')
  end.
Proof.
  intros Hl He Hdb. unfold RagService.__init__, _initialize, _load_vector_store.
  now rewrite Hl, He, Hdb.
Qed.


(** X6.  When building the chat model client raises, or building the
    embeddings raises after it, constructing the service raises that
    exception and the file system is untouched: no data directory and no
    sample file is created. *)
Theorem client_failure_stops_startup (fs : FileSystem Index) (e : exn) :
  init_llm = inl e \/ (init_llm = inr tt /\ init_embeddings = inl e) ->
  new_service fs = (inl e, fs).
Proof.
  unfold RagService.__init__, _initialize.
  intros [Hl | [Hl He]]; rewrite Hl; [reflexivity|]. now rewrite He.
Qed.

(** X7.  A fresh build (clients built, no persisted index) leaves a data
    directory behind whatever happens next, also when the loader, the
    splitter or the store builder raises: an existing directory keeps
    exactly its files, a missing one now holds the sample files. *)
Theorem fresh_build_keeps_data_dir (fs : FileSystem Index) :
  init_llm = inr tt -> init_embeddings = inr tt -> vector_db fs = None ->
  data_dir (snd (new_service fs)) = Some (corpus_files fs)
  /\ (forall files, data_dir fs = Some files ->
        data_dir (snd (new_service fs)) = Some files).
Proof.
  intros Hl He Hdb.
  assert (H : data_dir (snd (new_service fs)) = Some (corpus_files fs)).
  { rewrite (new_service_fresh fs Hl He Hdb), create_vector_store_cases.
    destruct (loader_load (corpus_files fs)) as [e|[|d ds]]; try reflexivity.
    destruct (split_documents _ _ _) as [e|splits]; try reflexivity.
    now destruct (chroma_from_documents splits (vector_db fs)) as [[e|i] db]. }
  split; [exact H|].
  intros files Hdir. rewrite H. unfold corpus_files. now rewrite Hdir.
Qed.

(** X8.  On a fresh build with documents, when the splitter raises (it is
    given CHUNK_SIZE and CHUNK_OVERLAP of the settings), constructing the
    service raises that exception, the store builder is not reached and the
    persist location still holds no index; the same when the loader
    raises. *)
Theorem split_failure_persists_nothing (fs : FileSystem Index) (e : exn) :
  init_llm = inr tt -> init_embeddings = inr tt -> vector_db fs = None ->
  loader_load (corpus_files fs) = inl e
  \/ (exists d ds, loader_load (corpus_files fs) = inr (d :: ds)
        /\ split_documents (CHUNK_SIZE settings) (CHUNK_OVERLAP settings) (d :: ds) = inl e) ->
  fst (new_service fs) = inl e
  /\ vector_db (snd (new_service fs)) = None.
Proof.
  intros Hl He Hdb H.
  rewrite (new_service_fresh fs Hl He Hdb), create_vector_store_cases.
  destruct H as [Hload | (d & ds & Hload & Hsplit)]; rewrite Hload; simpl.
  - now rewrite Hdb.
  - rewrite Hsplit. simpl. now rewrite Hdb.
Qed.

(** X9.  On a fresh build whose loader finds documents, whose splitter
    returns chunks and whose store builder returns an index, the service is
    constructed on that index with no session; the store was built from the
    chunks of the splitter, and the persist location holds what the store
    builder left there. *)
Theorem fresh_build_succeeds
    (fs : FileSystem Index) (d : Document) (ds splits : list Document)
    (idx : Index) (db : option Index) :
  init_llm = inr tt -> init_embeddings = inr tt -> vector_db fs = None ->
  loader_load (corpus_files fs) = inr (d :: ds) ->
  split_documents (CHUNK_SIZE settings) (CHUNK_OVERLAP settings) (d :: ds) = inr splits ->
  chroma_from_documents splits None = (inr idx, db) ->
  new_service fs
  = (inr {| vectorstore := Some idx; chat_memories := ∅ |},
     {| vector_db := db; data_dir := Some (corpus_files fs) |}).
Proof.
  intros Hl He Hdb Hload Hsplit Hchroma.
  rewrite (new_service_fresh fs Hl He Hdb), create_vector_store_cases.
  rewrite Hload. simpl. rewrite Hsplit, Hdb, Hchroma. reflexivity.
Qed.

(** X10.  A service object that was constructed has a vector store and no
    stored message for any session; so a query on it, after any trace, does
    not end in the attribute error of a missing store. *)
Theorem constructed_service_is_ready
    (fs fs' : FileSystem Index) (svc : RAGService Index)
    (get_relevant_documents : Index -> nat -> string -> Result (list Document))
    (llm_invoke : string -> Result string) :
  new_service fs = (inr svc, fs') ->
  (exists idx, vectorstore svc = Some idx)
  /\ (forall sid, history_of svc sid = [])
  /\ chat_memories svc = ∅
  /\ (forall question tr,
        exists events,
          trace (snd (RagService.query Index settings get_relevant_documents llm_invoke
                        question {| service := svc; trace := tr |}))
          = (tr ++ Retrieved (RETRIEVAL_K settings) question :: events)%list).
Proof.
  unfold RagService.__init__. intros H.
  destruct (_initialize _ _ _ _ _ _ _ fs) as [[e|idx] fs1]; [discriminate|].
  inversion H; subst. repeat split.
  - eexists. reflexivity.
  - intros question tr.
    unfold RagService.query, bind, as_retriever, log, ret, raise. simpl.
    destruct (get_relevant_documents idx (RETRIEVAL_K settings) question) as [e|docs]; simpl.
    + exists []. reflexivity.
    + eexists. rewrite <- app_assoc. simpl.
      destruct (llm_invoke _); reflexivity.
Qed.

End Startup.


Lemma client_failure_stops_startup_witness :
  RagService.__init__ nat default_settings (inr tt) (inl (LibraryError "no model files"))
    Demo.demo_loader Demo2.split_whole Demo2.build_store
    {| vector_db := None; data_dir := None |}
  = (inl (LibraryError "no model files"), {| vector_db := None; data_dir := None |}).
Proof.
  refine (client_failure_stops_startup nat default_settings (inr tt)
            (inl (LibraryError "no model files"))
            Demo.demo_loader Demo2.split_whole Demo2.build_store
            {| vector_db := None; data_dir := None |} (LibraryError "no model files") _).
  right. split; reflexivity.
Defined.

Lemma fresh_build_keeps_data_dir_witness :
  data_dir (snd (RagService.__init__ nat default_settings (inr tt) (inr tt) Demo.demo_loader
                   Demo2.split_broken Demo2.build_store Demo2.fs_one_text))
  = Some [("a.txt", "Python is a language.")].
Proof.
  refine (proj1
    (fresh_build_keeps_data_dir nat default_settings (inr tt) (inr tt) Demo.demo_loader
       Demo2.split_broken Demo2.build_store Demo2.fs_one_text _ _ _));
    reflexivity.
Defined.

Lemma split_failure_persists_nothing_witness :
  vector_db (snd (RagService.__init__ nat default_settings (inr tt) (inr tt) Demo.demo_loader
                    Demo2.split_broken Demo2.build_store Demo2.fs_one_text))
  = None.
Proof.
  refine (proj2
    (split_failure_persists_nothing nat default_settings (inr tt) (inr tt) Demo.demo_loader
       Demo2.split_broken Demo2.build_store Demo2.fs_one_text
       (ValueError "bad chunk settings") _ _ _ _)); try reflexivity.
  right. eexists _, _. split; reflexivity.
Defined.

Lemma fresh_build_succeeds_witness :
  RagService.__init__ nat default_settings (inr tt) (inr tt) Demo.demo_loader
    Demo2.split_whole Demo2.build_store Demo2.fs_one_text
  = (inr {| vectorstore := Some 1; chat_memories := ∅ |},
     {| vector_db := Some 1; data_dir := Some [("a.txt", "Python is a language.")] |}).
Proof.
  refine (fresh_build_succeeds nat default_settings (inr tt) (inr tt) Demo.demo_loader
            Demo2.split_whole Demo2.build_store Demo2.fs_one_text
            {| page_content := "Python is a language."; doc_source := "a.txt" |} []
            [{| page_content := "Python is a language."; doc_source := "a.txt" |}]
            1 (Some 1) _ _ _ _ _ _);
    reflexivity.
Defined.

Lemma constructed_service_is_ready_witness :
  chat_memories {| vectorstore := Some 1; chat_memories := ∅ |}
  = (∅ : gmap (option string) ConversationBufferMemory).
Proof.
  refine (proj1 (proj2 (proj2
    (constructed_service_is_ready nat default_settings (inr tt) (inr tt) Demo.demo_loader
       Demo2.split_whole Demo2.build_store Demo2.fs_one_text
       {| vector_db := Some 1; data_dir := Some [("a.txt", "Python is a language.")] |}
       {| vectorstore := Some 1; chat_memories := ∅ |}
       Demo.demo_retriever Demo.demo_llm _)))).
  reflexivity.
Defined.

End StartupProps.

(** * The files of the data directory *)

Module DataDirProps.
Import PyStr Config RagService DataDir.

Lemma read_write_same (name content : string) (files : Files) :
  read_file name (write_file name content files) = Some content.
Proof.
  induction files as [|[n c] rest IH]; simpl.
  - now rewrite String.eqb_refl.
  - destruct (String.eqb n name) eqn:Hn; simpl.
    + now rewrite String.eqb_refl.
    + now rewrite Hn.
Qed.

Lemma read_write_other (name content other : string) (files : Files) :
  other <> name ->
  read_file other (write_file name content files) = read_file other files.
Proof.
  intros Hne. induction files as [|[n c] rest IH]; simpl.
  - destruct (String.eqb name other) eqn:Hn; [|reflexivity].
    apply String.eqb_eq in Hn. congruence.
  - destruct (String.eqb n name) eqn:Hn; simpl.
    + apply String.eqb_eq in Hn. subst n.
      destruct (String.eqb name other) eqn:Ho; [|reflexivity].
      apply String.eqb_eq in Ho. congruence.
    + now rewrite IH.
Qed.

Lemma write_file_names (name content : string) (files : Files) :
  map fst (write_file name content files)
  = match read_file name files with
    | Some _ => map fst files
    | None => (map fst files ++ [name])%list
    end.
Proof.
  induction files as [|[n c] rest IH]; simpl; [reflexivity|].
  destruct (String.eqb n name) eqn:Hn; simpl.
  - apply String.eqb_eq in Hn. now subst n.
  - rewrite IH. now destruct (read_file name rest).
Qed.

(** Writing a file and reading it back gives what was written; no other
    file changes; a file that existed keeps its place and a new one is
    added at the end. *)
Lemma write_then_read (name content : string) (files : Files) :
  read_file name (write_file name content files) = Some content
  /\ (forall other, other <> name ->
        read_file other (write_file name content files) = read_file other files)
  /\ (forall old, read_file name files = Some old ->
        map fst (write_file name content files) = map fst files)
  /\ (read_file name files = None ->
        map fst (write_file name content files) = (map fst files ++ [name])%list).
Proof.
  repeat split.
  - apply read_write_same.
  - intros other Hne. now apply read_write_other.
  - intros old Hold. now rewrite write_file_names, Hold.
  - intros Hnone. now rewrite write_file_names, Hnone.
Qed.

(** X11.  Writing the sample documents into a directory, whatever it holds
    already: each of the three sample files then reads as its text with the
    blank space at both ends removed (a file of that name is overwritten),
    and every file with another name reads as before. *)
Theorem sample_documents_written (files : Files) :
  (forall name content, In (name, content) samples ->
     read_file name (_create_sample_documents files) = Some (strip content))
  /\ (forall other, ~ In other sample_names ->
        read_file other (_create_sample_documents files) = read_file other files).
Proof.
  unfold _create_sample_documents, samples, sample_names. simpl fold_left. split.
  - intros name content [H | [H | [H | []]]]; inversion H; subst; clear H.
    + rewrite read_write_other by discriminate.
      rewrite read_write_other by discriminate.
      apply read_write_same.
    + rewrite read_write_other by discriminate. apply read_write_same.
    + apply read_write_same.
  - intros other Hnot. simpl in Hnot.
    rewrite !read_write_other; try reflexivity; intros ->; apply Hnot; tauto.
Qed.

Lemma sample_documents_written_witness :
  read_file "notes.txt" (_create_sample_documents [("notes.txt", "mine")]) = Some "mine".
Proof.
  refine (proj2 (sample_documents_written [("notes.txt", "mine")]) "notes.txt" _).
  simpl. intros [H | [H | [H | []]]]; discriminate.
Defined.

End DataDirProps.

(** * Further properties of the mood tagger *)

Module UtilsProps.
Import PyStr PyStrFacts Utils UtilsFacts.

Lemma append_assoc (a b c : string) :
  String.append (String.append a b) c = String.append a (String.append b c).
Proof.
  induction a as [|x a IH]; [reflexivity|].
  rewrite !append_cons_l. now rewrite IH.
Qed.

Lemma length_append (a b : string) :
  String.length (String.append a b) = String.length a + String.length b.
Proof.
  induction a as [|x a IH]; [reflexivity|].
  rewrite append_cons_l. simpl. now rewrite IH.
Qed.

Lemma occurs_in_length (k t : string) :
  occurs_in k t -> String.length k <= String.length t.
Proof. intros [pre [post ->]]. rewrite !length_append. lia. Qed.

Lemma occurs_in_context (k t pre post : string) :
  occurs_in k t -> occurs_in k (String.append pre (String.append t post)).
Proof.
  intros [a [b ->]]. exists (String.append pre a), (String.append b post).
  now rewrite !append_assoc.
Qed.

Lemma mentions_context (keywords : list string) (t pre post : string) :
  mentions keywords t -> mentions keywords (String.append pre (String.append t post)).
Proof.
  intros [word [Hin Hocc]]. exists word. split; [assumption|].
  now apply occurs_in_context.
Qed.

Lemma any_in_context (keywords : list string) (t pre post : string) :
  any_in keywords (String.append pre (String.append t post)) = false ->
  any_in keywords t = false.
Proof.
  rewrite !any_in_not_mentions. intros Hnot Hm. apply Hnot. now apply mentions_context.
Qed.

Lemma ascii_lower_append (a b : string) :
  ascii_lower (String.append a b) = String.append (ascii_lower a) (ascii_lower b).
Proof.
  induction a as [|x a IH]; [reflexivity|].
  rewrite append_cons_l. simpl. rewrite append_cons_l. now rewrite IH.
Qed.

Lemma ascii_lower_length (s : string) : String.length (ascii_lower s) = String.length s.
Proof. induction s as [|c s IH]; simpl; congruence. Qed.

Lemma detect_happy (lower : string -> string) (text : string) :
  detect_emotion lower text = "happy" <-> any_in happy_keywords (lower text) = true.
Proof.
  unfold detect_emotion.
  destruct (any_in happy_keywords (lower text)); [tauto|].
  destruct (any_in explaining_keywords (lower text));
    destruct (any_in thinking_keywords (lower text));
    destruct (any_in confused_keywords (lower text));
    split; discriminate.
Qed.

Lemma detect_neutral (lower : string -> string) (text : string) :
  detect_emotion lower text = "neutral" <->
  any_in happy_keywords (lower text) = false
  /\ any_in explaining_keywords (lower text) = false
  /\ any_in thinking_keywords (lower text) = false
  /\ any_in confused_keywords (lower text) = false.
Proof.
  unfold detect_emotion.
  destruct (any_in happy_keywords (lower text));
    destruct (any_in explaining_keywords (lower text));
    destruct (any_in thinking_keywords (lower text));
    destruct (any_in confused_keywords (lower text));
    split; try discriminate; try tauto;
    intros (? & ? & ? & ?); discriminate.
Qed.

Lemma any_in_short (keywords : list string) (t : string) :
  forallb (fun k => Nat.ltb (String.length t) (String.length k)) keywords = true ->
  any_in keywords t = false.
Proof.
  intros Hall. apply any_in_not_mentions. intros [word [Hin Hocc]].
  rewrite forallb_forall in Hall. specialize (Hall word Hin).
  apply Nat.ltb_lt in Hall. apply occurs_in_length in Hocc. lia.
Qed.

Lemma keywords_are_long (keywords : list string) (n : nat) :
  forallb (fun k => Nat.leb 3 (String.length k)) keywords = true ->
  n < 3 ->
  forallb (fun k => Nat.ltb n (String.length k)) keywords = true.
Proof.
  intros Hall Hn. rewrite forallb_forall in *. intros k Hin.
  specialize (Hall k Hin). apply Nat.leb_le in Hall. apply Nat.ltb_lt. lia.
Qed.

(** X12.  A text whose lower-cased form has fewer than three characters,
    the empty text included, is tagged "neutral": no keyword is that
    short.  With the ASCII lower-casing this is every text of fewer than
    three characters. *)
Theorem short_text_is_neutral (lower : string -> string) (text : string) :
  String.length (lower text) < 3 ->
  detect_emotion lower text = "neutral"
  /\ (String.length text < 3 -> detect_emotion ascii_lower text = "neutral").
Proof.
  assert (H : forall low, String.length (low text) < 3 -> detect_emotion low text = "neutral").
  { intros low Hlen. apply detect_neutral.
    repeat split; apply any_in_short; apply keywords_are_long; try assumption; reflexivity. }
  intros Hlen. split; [now apply H|].
  intros Ht. apply H. now rewrite ascii_lower_length.
Qed.

(** X13.  With the ASCII lower-casing, a happy text stays happy inside any
    longer text: whatever is put before and after it, the result is
    "happy". *)
Theorem happy_inside_any_text (pre text post : string) :
  detect_emotion ascii_lower text = "happy" ->
  detect_emotion ascii_lower (String.append pre (String.append text post)) = "happy".
Proof.
  rewrite !detect_happy, !ascii_lower_append, !any_in_mentions.
  apply mentions_context.
Qed.

(** X14.  With the ASCII lower-casing, every part of a neutral text is
    neutral: a text is tagged "neutral" only if no stretch of it would be
    tagged otherwise. *)
Theorem neutral_text_has_neutral_parts (pre text post : string) :
  detect_emotion ascii_lower (String.append pre (String.append text post)) = "neutral" ->
  detect_emotion ascii_lower text = "neutral".
Proof.
  rewrite !detect_neutral, !ascii_lower_append.
  intros (H1 & H2 & H3 & H4).
  repeat split; eapply any_in_context; eassumption.
Qed.

Lemma short_text_is_neutral_witness :
  detect_emotion ascii_lower "ok" = "neutral".
Proof.
  refine (proj1 (short_text_is_neutral ascii_lower "ok" _)).
  simpl. lia.
Defined.

Lemma happy_inside_any_text_witness :
  detect_emotion ascii_lower
    (String.append "I am not sure, but " (String.append "YES" "terday it was unclear"))
  = "happy".
Proof.
  refine (happy_inside_any_text "I am not sure, but " "YES" "terday it was unclear" _).
  reflexivity.
Defined.

Lemma neutral_text_has_neutral_parts_witness :
  detect_emotion ascii_lower "capital of France" = "neutral".
Proof.
  refine (neutral_text_has_neutral_parts "The " "capital of France" " is Paris." _).
  reflexivity.
Defined.

End UtilsProps.

(** * Further properties of the question endpoints *)

Module AppProps.
Import PyStr Config RagService Models App Utils.

Lemma detect_emotion_in_emotions (lower : string -> string) (text : string) :
  In (detect_emotion lower text) emotions.
Proof.
  unfold detect_emotion, emotions.
  destruct (any_in happy_keywords _); [simpl; tauto|].
  destruct (any_in explaining_keywords _); [simpl; tauto|].
  destruct (any_in thinking_keywords _); [simpl; tauto|].
  destruct (any_in confused_keywords _); simpl; tauto.
Qed.

Lemma validate_question_accepts (q : string) :
  1 <= String.length q -> validate_question (JStr q) = inr q.
Proof.
  intros Hlen. unfold validate_question.
  destruct (Nat.leb_spec 1 (String.length q)); [reflexivity | lia].
Qed.


Section Endpoints.

Variable Index : Type.
Variable settings : Settings.
Variable lower : string -> string.
Variable get_relevant_documents : Index -> nat -> string -> Result (list Document).
Variable llm_invoke : string -> Result string.
Variable qa_chain :
  Index -> nat -> ConversationBufferMemory -> string ->
  ConversationBufferMemory * Result ChainOutput.

Local Abbreviation post_query :=
  (App.post_query Index settings lower get_relevant_documents llm_invoke).
Local Abbreviation post_chat := (App.post_chat Index settings lower qa_chain).
Local Abbreviation query := (RagService.query Index settings get_relevant_documents llm_invoke).
Local Abbreviation chat := (RagService.chat Index settings qa_chain).

Lemma query_result_from_model (w : World Index) (question reply : string)
    (docs : list Document) :
  fst (query question w) = inr (reply, docs) ->
  exists prompt, llm_invoke prompt = inr reply.
Proof using.
  destruct (ServiceProps.query_cases Index settings get_relevant_documents llm_invoke w question)
    as [[_ Hq] | [(i & e & _ & _ & Hq) | (i & d & _ & _ & Hq)]].
  - rewrite Hq. discriminate.
  - rewrite Hq. discriminate.
  - simpl in Hq. rewrite Hq. simpl.
    destruct (llm_invoke _) as [e|content] eqn:Hllm; [discriminate|].
    intros H. inversion H; subst. eexists. exact Hllm.
Qed.

Lemma query_keeps_service (w : World Index) (question : string) :
  service (snd (query question w)) = service w.
Proof using.
  destruct (ServiceProps.query_cases Index settings get_relevant_documents llm_invoke w question)
    as [[_ Hq] | [(i & e & _ & _ & Hq) | (i & d & _ & _ & Hq)]];
    simpl in Hq; now rewrite Hq.
Qed.

(** X15.  Every POST to the query endpoint ends in one of three ways.  The
    validation error, exactly when the body does not validate, and then the
    world is untouched.  A response whose text is the output of the chat
    model as it came and whose emotion is the mood tag of that text, one of
    the five moods; the question then had at least one character.  Or an
    HTTP error, and its status is always 500.  In no case does the service
    object change: the query endpoint never touches a session.  Which of
    the three it is, is decided by the body and the collaborators: for a
    body that validates, the error 500 with the text of the exception when
    the store is missing, the retriever raises or the chat model raises,
    and otherwise the response with the content the model returned for the
    prompt built from the retrieved page contents, a blank line between
    every two, and the question. *)
Theorem post_query_outcomes (body : RawBody) (w : World Index) :
  service (snd (post_query body w)) = service w
  /\ match fst (post_query body w) with
     | Unprocessable err => validate_QueryRequest body = inl err /\ snd (post_query body w) = w
     | Response text emotion =>
         emotion = detect_emotion lower text
         /\ In emotion emotions
         /\ (exists prompt, llm_invoke prompt = inr text)
         /\ (exists q, raw_question body = JStr q /\ 1 <= String.length q)
     | HTTPException code detail => code = 500
     end
  /\ (forall err, fst (post_query body w) = Unprocessable err
                  <-> validate_QueryRequest body = inl err)
  /\ (forall err, validate_QueryRequest body = inl err ->
        post_query body w = (Unprocessable err, w))
  /\ (forall q, raw_question body = JStr q -> 1 <= String.length q ->
        match vectorstore (service w) with
        | None =>
            fst (post_query body w)
            = HTTPException 500 "'NoneType' object has no attribute 'as_retriever'"
        | Some idx =>
            match get_relevant_documents idx (RETRIEVAL_K settings) q with
            | inl e => fst (post_query body w) = HTTPException 500 (str_of_exn e)
            | inr docs =>
                exists context,
                  Delimited.delimited "

" (map page_content docs) context
                  /\ fst (post_query body w)
                     = match llm_invoke
                               ("You are a friendly AI tutor. Answer clearly and concisely.

Context: " +:+ context +:+ "

Question: " +:+ q +:+ "

Answer:") with
                       | inl e => HTTPException 500 (str_of_exn e)
                       | inr content => Response content (detect_emotion lower content)
                       end
            end
        end).
Proof using.
  assert (Hinvalid : forall err, validate_QueryRequest body = inl err ->
                                 post_query body w = (Unprocessable err, w)).
  { intros err Hv. unfold App.post_query. now rewrite Hv. }
  assert (Hshape :
    service (snd (post_query body w)) = service w
    /\ match fst (post_query body w) with
       | Unprocessable err =>
           validate_QueryRequest body = inl err /\ snd (post_query body w) = w
       | Response text emotion =>
           emotion = detect_emotion lower text
           /\ In emotion emotions
           /\ (exists prompt, llm_invoke prompt = inr text)
           /\ (exists q, raw_question body = JStr q /\ 1 <= String.length q)
       | HTTPException code detail => code = 500
       end).
  { unfold App.post_query.
    destruct (validate_QueryRequest body) as [err|request] eqn:Hv.
    - simpl. auto.
    - unfold App.query_endpoint.
      pose proof (query_keeps_service w (question request)) as Hsvc.
      pose proof (query_result_from_model w (question request)) as Hres.
      destruct (query (question request) w) as [[e|[reply docs]] w1];
        simpl in Hsvc, Hres |- *.
      + auto.
      + split; [exact Hsvc|]. repeat split.
        * apply detect_emotion_in_emotions.
        * eapply Hres. reflexivity.
        * unfold validate_QueryRequest in Hv.
          destruct (validate_question (raw_question body)) as [err|q] eqn:Hq; [discriminate|].
          inversion Hv; subst. simpl.
          destruct (AppFacts.validate_question_nonempty _ _ Hq) as [Hj Hlen].
          exists q. auto. }
  destruct Hshape as [Hsvc Hmatch].
  split; [exact Hsvc|]. split; [exact Hmatch|]. split; [|split; [exact Hinvalid|]].
  - intros err. split.
    + intros Hfst. rewrite Hfst in Hmatch. tauto.
    + intros Hv. now rewrite (Hinvalid err Hv).
  - intros q Hq Hlen.
    assert (Hpost : post_query body w
                    = App.query_endpoint Index settings lower get_relevant_documents
                        llm_invoke {| question := q |} w).
    { unfold App.post_query, validate_QueryRequest.
      now rewrite Hq, (validate_question_accepts q Hlen). }
    rewrite Hpost. unfold App.query_endpoint. simpl.
    destruct (ServiceProps.query_cases Index settings get_relevant_documents llm_invoke w q)
      as [[Hn Hr] | [(i & e & Hi & He & Hr) | (i & d & Hi & Hd & Hr)]].
    + rewrite Hn, Hr. reflexivity.
    + rewrite Hi, He, Hr. reflexivity.
    + rewrite Hi, Hd. simpl in Hr. rewrite Hr.
      exists (join "

" (map page_content d)). split; [apply QueryFacts.join_delimited|].
      unfold build_prompt.
      destruct (llm_invoke _) as [e|content]; reflexivity.
Qed.


(** X17.  A question that validates reaches the retriever as it was sent:
    on a service with a vector store the first outside call of the query
    endpoint is one retrieval, for RETRIEVAL_K documents, on exactly the
    question of the body; nothing is trimmed, so a question of blanks is
    looked up as it is. *)
Theorem valid_question_reaches_retriever
    (body : RawBody) (w : World Index) (idx : Index) (q : string) :
  raw_question body = JStr q ->
  1 <= String.length q ->
  vectorstore (service w) = Some idx ->
  exists events,
    trace (snd (post_query body w))
    = (trace w ++ Retrieved (RETRIEVAL_K settings) q :: events)%list.
Proof using.
  intros Hq Hlen Hvs.
  unfold App.post_query, validate_QueryRequest.
  rewrite Hq, (validate_question_accepts q Hlen). unfold App.query_endpoint. simpl.
  destruct (ServiceProps.query_cases Index settings get_relevant_documents llm_invoke w q)
    as [[Hn _] | [(i & e & _ & _ & Hr) | (i & d & _ & _ & Hr)]].
  - congruence.
  - rewrite Hr. simpl. now exists [].
  - simpl in Hr. rewrite Hr. simpl.
    destruct (llm_invoke _) as [e|content]; simpl; eexists; reflexivity.
Qed.

End Endpoints.

Lemma post_query_outcomes_witness :
  fst (App.post_query nat default_settings ascii_lower Demo.demo_retriever Demo.demo_llm
         {| raw_question := JStr "What is Python?"; raw_session_id := Absent |}
         Demo.demo_world)
  = Response "A language." "neutral".
Proof.
  destruct (proj2 (proj2 (proj2 (proj2
    (post_query_outcomes nat default_settings ascii_lower Demo.demo_retriever Demo.demo_llm
       {| raw_question := JStr "What is Python?"; raw_session_id := Absent |}
       Demo.demo_world)))) "What is Python?" eq_refl ltac:(simpl; lia))
    as [context [_ H]].
  exact H.
Defined.


Lemma valid_question_reaches_retriever_witness :
  exists events,
    trace (snd (App.post_query nat default_settings ascii_lower
                  Demo.demo_retriever Demo.demo_llm
                  {| raw_question := JStr "   "; raw_session_id := Absent |} Demo.demo_world))
    = (trace Demo.demo_world ++ Retrieved 3 "   " :: events)%list.
Proof.
  refine (valid_question_reaches_retriever nat default_settings ascii_lower
            Demo.demo_retriever Demo.demo_llm
            {| raw_question := JStr "   "; raw_session_id := Absent |}
            Demo.demo_world 0 "   " _ _ _).
  - reflexivity.
  - simpl. lia.
  - reflexivity.
Defined.

End AppProps.

(** * Strings and paths *)

Module PyPathFacts.
Import PyStr PyStrFacts PyPath.

Lemma endswith_nil (suffix : string) :
  endswith EmptyString suffix = String.eqb EmptyString suffix || false.
Proof. reflexivity. Qed.

Lemma endswith_cons (c : ascii) (s suffix : string) :
  endswith (String c s) suffix = String.eqb (String c s) suffix || endswith s suffix.
Proof. reflexivity. Qed.

Lemma endswith_ends_in (s suffix : string) :
  endswith s suffix = true <-> ends_in s suffix.
Proof.
  induction s as [|c s IH].
  - rewrite endswith_nil, orb_false_r, String.eqb_eq. split.
    + intros <-. now exists EmptyString.
    + intros [pre H]. destruct pre as [|a pre].
      * now rewrite append_nil_l in H.
      * rewrite append_cons_l in H. discriminate.
  - rewrite endswith_cons, orb_true_iff, String.eqb_eq, IH. split.
    + intros [<- | [pre ->]].
      * now exists EmptyString.
      * exists (String c pre). now rewrite append_cons_l.
    + intros [pre H]. destruct pre as [|a pre].
      * left. now rewrite append_nil_l in H.
      * right. rewrite append_cons_l in H. inversion H. now exists pre.
Qed.

Lemma ends_in_append (a s suffix : string) :
  ends_in s suffix -> ends_in (String.append a s) suffix.
Proof.
  intros [pre ->]. exists (String.append a pre).
  induction a as [|x a IH]; [reflexivity|].
  rewrite !append_cons_l. now rewrite IH.
Qed.

Lemma ends_in_cons (c : ascii) (s suffix : string) :
  ends_in s suffix -> ends_in (String c s) suffix.
Proof. intros [pre ->]. exists (String c pre). now rewrite append_cons_l. Qed.

(** A relative second part is kept at the end of the joined path. *)
Lemma path_join_ends_in (a b : string) :
  String.prefix "/" b = false -> ends_in (path_join a b) b.
Proof.
  intros Hrel. unfold path_join. rewrite Hrel.
  destruct (String.eqb a EmptyString || endswith a "/").
  - apply ends_in_append. now exists EmptyString.
  - apply ends_in_append. exists "/". reflexivity.
Qed.

Lemma path_join_truthy (a b : string) :
  truthy b = true -> truthy (path_join a b) = true.
Proof.
  intros Hb. unfold path_join.
  destruct (String.prefix "/" b); [assumption|].
  destruct (String.eqb a EmptyString || endswith a "/");
    destruct a as [|x a]; try reflexivity; rewrite ?append_nil_l; assumption.
Qed.

Local Abbreviation mp3_to_wav := (replace_from 0 ".mp3" ".wav").

Lemma mp3_to_wav_match (r : string) :
  mp3_to_wav (String.append ".mp3" r) = String.append ".wav" (mp3_to_wav r).
Proof.
  assert (Hp : String.prefix ".mp3" (String.append ".mp3" r) = true)
    by (apply prefix_split; now exists r).
  change (mp3_to_wav (String.append ".mp3" r))
    with (if String.prefix ".mp3" (String.append ".mp3" r)
          then String.append ".wav" (mp3_to_wav r)
          else String "." (mp3_to_wav (String.append "mp3" r))).
  now rewrite Hp.
Qed.

Lemma mp3_to_wav_step (c : ascii) (r : string) :
  String.prefix ".mp3" (String c r) = false ->
  mp3_to_wav (String c r) = String c (mp3_to_wav r).
Proof.
  intros H. change (mp3_to_wav (String c r))
    with (if String.prefix ".mp3" (String c r)
          then String.append ".wav" (replace_from 3 ".mp3" ".wav" r)
          else String c (mp3_to_wav r)).
  now rewrite H.
Qed.

(** The two occurrences cannot overlap: after a leading ".mp3", a text
    that ends in ".mp3" and goes on still ends in ".mp3". *)
Lemma mp3_after_mp3 (pre r : string) :
  String.append ".mp3" r = String.append pre ".mp3" ->
  r = EmptyString \/ ends_in r ".mp3".
Proof.
  intros H.
  destruct pre as [|a [|b [|c [|d pre]]]];
    repeat rewrite ?append_cons_l, ?append_nil_l in H;
    inversion H; subst; try discriminate.
  - now left.
  - right. now exists pre.
Qed.

Lemma mp3_becomes_wav_bounded (n : nat) :
  forall s, String.length s <= n -> ends_in s ".mp3" -> ends_in (mp3_to_wav s) ".wav".
Proof.
  induction n as [|n IH]; intros s Hlen Hend.
  - destruct s; [|simpl in Hlen; lia].
    destruct Hend as [pre H]. destruct pre; rewrite ?append_cons_l in H; discriminate.
  - destruct s as [|c r].
    + destruct Hend as [pre H]. destruct pre; rewrite ?append_cons_l in H; discriminate.
    + destruct (String.prefix ".mp3" (String c r)) eqn:Hp.
      * apply prefix_split in Hp. destruct Hp as [r' Hr']. rewrite Hr'.
        rewrite mp3_to_wav_match.
        destruct Hend as [pre Hpre]. rewrite Hr' in Hpre.
        destruct (mp3_after_mp3 pre r' Hpre) as [-> | Hr].
        -- now exists EmptyString.
        -- apply ends_in_append. apply IH; [|assumption].
           assert (Hl : String.length (String c r) = 4 + String.length r')
             by (rewrite Hr'; reflexivity).
           simpl in Hlen, Hl. lia.
      * rewrite (mp3_to_wav_step c r Hp). apply ends_in_cons.
        destruct Hend as [pre Hpre]. destruct pre as [|a pre].
        -- rewrite append_nil_l in Hpre. rewrite Hpre in Hp. discriminate.
        -- rewrite append_cons_l in Hpre. inversion Hpre; subst.
           apply IH; [simpl in Hlen; lia|]. now exists pre.
Qed.

Lemma mp3_becomes_wav (s : string) :
  ends_in s ".mp3" -> ends_in (replace ".mp3" ".wav" s) ".wav".
Proof. apply (mp3_becomes_wav_bounded (String.length s)). lia. Qed.

Lemma no_mp3_unchanged (s : string) :
  str_contains ".mp3" s = false -> replace ".mp3" ".wav" s = s.
Proof.
  unfold replace. induction s as [|c r IH]; [reflexivity|].
  rewrite str_contains_cons. intros H. apply orb_false_iff in H. destruct H as [Hp Hr].
  rewrite (mp3_to_wav_step c r Hp). now rewrite IH.
Qed.

End PyPathFacts.

(** * The speech services and the audio endpoints *)

Module AudioProps.
Import PyStr PyStrFacts PyPath PyPathFacts SttService TtsService AudioApp.

Section Transcription.

Variable STT_LANGUAGE : string.
Variable tmpdir : string.
Variable recognize : option string -> string -> Recognition.
Variable open_wb : string -> option string.

Local Abbreviation transcribe_audio_file :=
  (SttService.transcribe_audio_file STT_LANGUAGE recognize).
Local Abbreviation transcribe_audio :=
  (AudioApp.transcribe_audio STT_LANGUAGE tmpdir recognize open_wb).

(** X18.  [transcribe_audio_file] uses the configured language when it is
    given none or the empty string.  It returns [None] exactly when the
    speech was not understood and the text exactly when one was heard;
    every other failure is raised, never returned as [None]: a request error
    as "STT service error: ..." and anything else as "Transcription
    failed: ...", each followed by the text of the original exception. *)
Theorem transcribe_audio_file_outcomes
    (fs : gmap string string) (path : string) (language : option string) :
  let heard := recognize (fs !! path) (language_or_default STT_LANGUAGE language) in
  let r := transcribe_audio_file fs path language in
  transcribe_audio_file fs path None = transcribe_audio_file fs path (Some STT_LANGUAGE)
  /\ transcribe_audio_file fs path (Some EmptyString)
     = transcribe_audio_file fs path (Some STT_LANGUAGE)
  /\ (r = inr None <-> heard = UnknownValueError)
  /\ (forall text, r = inr (Some text) <-> heard = Heard text)
  /\ (forall msg, heard = RequestError msg ->
        r = inl (Exception ("STT service error: " +:+ msg)))
  /\ (forall msg, heard = OtherError msg ->
        r = inl (Exception ("Transcription failed: " +:+ msg))).
Proof.
  intros heard r. subst heard r. unfold SttService.transcribe_audio_file.
  assert (Hl : language_or_default STT_LANGUAGE (Some STT_LANGUAGE) = STT_LANGUAGE)
    by (unfold language_or_default; now destruct (truthy STT_LANGUAGE)).
  rewrite Hl. split; [reflexivity|]. split; [reflexivity|].
  destruct (recognize (fs !! path) (language_or_default STT_LANGUAGE language));
    repeat split; intros; try discriminate; try congruence.
Qed.

(** X19.  A transcription request whose upload could be saved and whose
    recognition did not raise: the recognizer was given the uploaded bytes
    and the configured language; the answer is the text that was heard, or
    the error 400 when nothing was understood or the text is empty; and
    afterwards no file is left at the temporary path (a file that was there
    before is gone too) while every other file is as before. *)
Theorem transcription_removes_temp_file
    (filename : option string) (content : string) (fs : gmap string string) :
  let temp_path := path_join tmpdir (temp_name filename) in
  open_wb temp_path = None ->
  (recognize (Some content) STT_LANGUAGE = UnknownValueError
   \/ exists t, recognize (Some content) STT_LANGUAGE = Heard t) ->
  let fs' := snd (transcribe_audio filename content fs) in
  fs' !! temp_path = None
  /\ (forall p, p <> temp_path -> fs' !! p = fs !! p)
  /\ fst (transcribe_audio filename content fs)
     = match recognize (Some content) STT_LANGUAGE with
       | Heard t =>
           if truthy t then TranscribeResponse t
           else HTTPError 400 "Could not transcribe audio"
       | _ => HTTPError 400 "Could not transcribe audio"
       end.
Proof.
  intros temp_path Hopen Hrec fs'. subst fs'.
  unfold AudioApp.transcribe_audio, SttService.transcribe_audio_file. fold temp_path.
  rewrite Hopen, lookup_insert_eq. simpl.
  destruct Hrec as [Hrec | [t Hrec]]; rewrite Hrec; [|destruct (truthy t)]; simpl;
    (split; [apply lookup_delete_eq|]);
    (split; [|reflexivity]);
    intros p Hp; rewrite lookup_delete_ne, lookup_insert_ne; congruence.
Qed.

(** X20.  A transcription request whose upload could be saved and whose
    recognition raised: the answer is the error 500 with the text of the
    exception the service raised, and the removal of the saved file is
    skipped: the upload stays at the temporary path.  Every other file is
    as before. *)
Theorem failed_transcription_leaves_temp_file
    (filename : option string) (content msg : string) (fs : gmap string string) :
  let temp_path := path_join tmpdir (temp_name filename) in
  open_wb temp_path = None ->
  recognize (Some content) STT_LANGUAGE = RequestError msg
  \/ recognize (Some content) STT_LANGUAGE = OtherError msg ->
  let fs' := snd (transcribe_audio filename content fs) in
  fs' !! temp_path = Some content
  /\ (forall p, p <> temp_path -> fs' !! p = fs !! p)
  /\ fst (transcribe_audio filename content fs)
     = match recognize (Some content) STT_LANGUAGE with
       | RequestError _ => HTTPError 500 ("STT service error: " +:+ msg)
       | _ => HTTPError 500 ("Transcription failed: " +:+ msg)
       end.
Proof.
  intros temp_path Hopen Hrec fs'. subst fs'.
  unfold AudioApp.transcribe_audio, SttService.transcribe_audio_file. fold temp_path.
  rewrite Hopen, lookup_insert_eq. simpl.
  destruct Hrec as [Hrec | Hrec]; rewrite Hrec; simpl;
    (split; [apply lookup_insert_eq|]);
    (split; [|reflexivity]);
    intros p Hp; rewrite lookup_insert_ne; congruence.
Qed.

End Transcription.

Section Voices.

Variable Volume : Type.
Variable TTS_SPEED : Z.
Variable TTS_VOLUME : Volume.
Variable pyttsx3_init : exception + (Engine Volume * list Voice).

Local Abbreviation new_tts := (TtsService.__init__ Volume TTS_SPEED TTS_VOLUME pyttsx3_init).

(** X21.  [set_voice] with an index inside the list of voices selects that
    voice; with any other index, a negative one or one past the end, it
    changes nothing.  Rate, volume and the list of voices are never
    touched. *)
Theorem set_voice_bounds (tts : TTSService Volume) (voice_index : Z) :
  ((voice_index < 0 \/ Z.of_nat (length (voices tts)) <= voice_index)%Z ->
     set_voice Volume tts voice_index = tts)
  /\ (forall v, (0 <= voice_index)%Z ->
        voices tts !! Z.to_nat voice_index = Some v ->
        voice (engine (set_voice Volume tts voice_index)) = voice_id v)
  /\ rate (engine (set_voice Volume tts voice_index)) = rate (engine tts)
  /\ volume (engine (set_voice Volume tts voice_index)) = volume (engine tts)
  /\ voices (set_voice Volume tts voice_index) = voices tts.
Proof.
  unfold set_voice.
  destruct (Z.leb_spec 0 voice_index) as [Hlo|Hlo];
    destruct (Z.ltb_spec voice_index (Z.of_nat (length (voices tts)))) as [Hhi|Hhi]; simpl.
  - destruct (voices tts !! Z.to_nat voice_index) as [v|] eqn:Hv.
    + repeat split; simpl; try reflexivity; try (intros; lia).
      intros v' _ Hv'. now inversion Hv'.
    + apply lookup_ge_None in Hv. lia.
  - repeat split. intros v _ Hv. apply lookup_lt_Some in Hv. lia.
  - repeat split. intros v H. lia.
  - repeat split. intros v H. lia.
Qed.

(** X22.  When the engine starts, the service takes the rate and the volume
    of the settings and keeps the voices the engine reports; with two or
    more voices it selects the second one, with fewer it leaves the voice
    of the engine as it is.  When the engine does not start, its exception
    is raised. *)
Theorem tts_starts_with_second_voice (e : Engine Volume) (vs : list Voice) :
  pyttsx3_init = inr (e, vs) ->
  exists tts,
    new_tts = inr tts
    /\ rate (engine tts) = TTS_SPEED
    /\ volume (engine tts) = TTS_VOLUME
    /\ voices tts = vs
    /\ (forall v, vs !! 1%nat = Some v -> voice (engine tts) = voice_id v)
    /\ (length vs <= 1 -> voice (engine tts) = voice e).
Proof.
  intros Hinit. unfold TtsService.__init__. rewrite Hinit.
  eexists. split; [reflexivity|]. simpl.
  destruct (Z.ltb_spec 1 (Z.of_nat (length vs))) as [Hlen|Hlen].
  - destruct (vs !! 1%nat) as [v|] eqn:Hv.
    + repeat split; simpl; try reflexivity; try (intros; lia).
      intros v' Hv'. now inversion Hv'.
    + apply lookup_ge_None in Hv. lia.
  - repeat split. intros v Hv. apply lookup_lt_Some in Hv. lia.
Qed.

End Voices.

Section Speech.

Variable Volume : Type.
Variable tmpdir : string.
Variable synthesize : Engine Volume -> string -> string -> Synthesis.

Local Abbreviation output_path_of := (TtsService.output_path_of tmpdir).
Local Abbreviation text_to_speech := (TtsService.text_to_speech Volume tmpdir synthesize).
Local Abbreviation speak := (AudioApp.speak Volume tmpdir synthesize).
Local Abbreviation default_path := (path_join tmpdir "tts_output.wav").

Lemma default_path_is_wav : endswith default_path ".wav" = true.
Proof.
  apply endswith_ends_in.
  destruct (path_join_ends_in tmpdir "tts_output.wav" eq_refl) as [pre ->].
  apply ends_in_append. exists "tts_output". reflexivity.
Qed.

Lemma output_path_default : output_path_of None = default_path.
Proof. unfold TtsService.output_path_of. now rewrite default_path_is_wav. Qed.

(** X23.  The path [text_to_speech] writes to ends in ".wav" in each of
    these cases: no path or the empty path was given (the file is then
    "tts_output.wav" in the temporary directory), the given path ends in
    ".wav" (it is used as it is), or the given path ends in ".mp3". *)
Theorem output_path_is_wav (output_path : option string) :
  match output_path with
  | None => True
  | Some p => truthy p = false \/ ends_in p ".wav" \/ ends_in p ".mp3"
  end ->
  ends_in (output_path_of output_path) ".wav"
  /\ (forall p, output_path = Some p -> truthy p = true -> ends_in p ".wav" ->
        output_path_of output_path = p)
  /\ (forall p, output_path = Some p -> truthy p = false ->
        output_path_of output_path = default_path)
  /\ (output_path = None -> output_path_of output_path = default_path).
Proof.
  intros Hcase.
  assert (Hdef : forall o, o = None \/ (exists p, o = Some p /\ truthy p = false) ->
                           output_path_of o = default_path).
  { intros o [-> | (p & -> & Hp)]; [apply output_path_default|].
    unfold TtsService.output_path_of. rewrite Hp. now rewrite default_path_is_wav. }
  assert (Hwav : forall p, truthy p = true -> ends_in p ".wav" ->
                           output_path_of (Some p) = p).
  { intros p Hp Hend. unfold TtsService.output_path_of. rewrite Hp.
    apply endswith_ends_in in Hend. now rewrite Hend. }
  split; [|repeat split].
  - destruct output_path as [p|].
    + destruct (truthy p) eqn:Hp.
      * destruct Hcase as [Hc | [Hc | Hc]]; [discriminate | |].
        -- now rewrite (Hwav p Hp Hc).
        -- unfold TtsService.output_path_of. rewrite Hp.
           destruct (endswith p ".wav") eqn:He.
           ++ now apply endswith_ends_in.
           ++ now apply mp3_becomes_wav.
      * rewrite Hdef by (right; eauto). apply endswith_ends_in, default_path_is_wav.
    + rewrite Hdef by now left. apply endswith_ends_in, default_path_is_wav.
  - intros p -> Hp Hend. now apply Hwav.
  - intros p -> Hp. apply Hdef. right; eauto.
  - intros ->. apply Hdef. now left.
Qed.

(** X24.  A given path that does not end in ".wav" and has no ".mp3"
    inside is used as it is: the file is then written under a name that is
    not a ".wav" name. *)
Theorem other_extension_is_kept (p : string) :
  truthy p = true ->
  endswith p ".wav" = false ->
  str_contains ".mp3" p = false ->
  output_path_of (Some p) = p /\ ~ ends_in (output_path_of (Some p)) ".wav".
Proof.
  intros Hp Hwav Hmp3.
  assert (H : output_path_of (Some p) = p).
  { unfold TtsService.output_path_of. rewrite Hp, Hwav. now apply no_mp3_unchanged. }
  split; [exact H|]. rewrite H. intros Hend.
  apply endswith_ends_in in Hend. congruence.
Qed.

(** X25.  [POST /speak], whatever the text: when the engine raises, the
    answer is the error 500 "Text-to-speech conversion failed: ..." with
    the text of the exception.  Otherwise the file is always
    "tts_output.wav" in the temporary directory, and it is sent back when
    it exists after the call, be it written by this call or left there by
    an earlier one; when the engine wrote nothing and no such file exists,
    the answer is the error 500 "TTS generation failed". *)
Theorem speak_outcomes (tts : TTSService Volume) (text : string) (fs : gmap string string) :
  let s := synthesize (engine tts) text default_path in
  let fs' := match written s with
             | Some audio => <[default_path := audio]> fs
             | None => fs
             end in
  snd (speak tts text fs) = fs'
  /\ fst (speak tts text fs)
     = match raised s with
       | Some msg => HTTPError 500 ("Text-to-speech conversion failed: " +:+ msg)
       | None =>
           match written s, fs !! default_path with
           | None, None => HTTPError 500 "TTS generation failed"
           | _, _ => FileResponse default_path "audio/wav" "speech.wav"
           end
       end.
Proof.
  intros s fs'. subst s fs'.
  unfold AudioApp.speak, TtsService.text_to_speech. rewrite output_path_default.
  assert (Ht : truthy default_path = true) by (now apply path_join_truthy).
  destruct (synthesize (engine tts) text default_path) as [[msg|] [audio|]]; simpl;
    try (split; reflexivity); rewrite Ht; simpl.
  - rewrite bool_decide_eq_true_2; [split; reflexivity|].
    rewrite lookup_insert_eq. eauto.
  - destruct (fs !! default_path) as [old|] eqn:Hold.
    + rewrite bool_decide_eq_true_2 by eauto. split; reflexivity.
    + rewrite bool_decide_eq_false_2; [split; reflexivity|].
      intros [x Hx]. discriminate.
Qed.

End Speech.

Lemma transcription_removes_temp_file_witness :
  snd (AudioApp.transcribe_audio "en-US" "/tmp" DemoAudio.demo_recognize (fun _ => None)
         (Some "a.wav") "speech" {[ "/tmp/temp_a.wav" := "old upload" ]})
  !! "/tmp/temp_a.wav" = None.
Proof.
  refine (proj1
    (transcription_removes_temp_file "en-US" "/tmp" DemoAudio.demo_recognize (fun _ => None)
       (Some "a.wav") "speech" {[ "/tmp/temp_a.wav" := "old upload" ]} _ _)).
  - reflexivity.
  - right. exists "hello". reflexivity.
Defined.

Lemma failed_transcription_leaves_temp_file_witness :
  snd (AudioApp.transcribe_audio "en-US" "/tmp" DemoAudio.demo_recognize (fun _ => None)
         (Some "a.wav") "static" ∅)
  !! "/tmp/temp_a.wav" = Some "static".
Proof.
  refine (proj1
    (failed_transcription_leaves_temp_file "en-US" "/tmp" DemoAudio.demo_recognize
       (fun _ => None) (Some "a.wav") "static" "connection failed" ∅ _ _)).
  - reflexivity.
  - left. reflexivity.
Defined.

Lemma tts_starts_with_second_voice_witness :
  exists tts,
    TtsService.__init__ nat 150%Z 9 (inr (DemoAudio.demo_engine, DemoAudio.demo_voices))
    = inr tts
    /\ rate (engine tts) = 150%Z
    /\ volume (engine tts) = 9
    /\ voices tts = DemoAudio.demo_voices
    /\ (forall v, DemoAudio.demo_voices !! 1%nat = Some v -> voice (engine tts) = voice_id v)
    /\ (length DemoAudio.demo_voices <= 1 -> voice (engine tts) = voice DemoAudio.demo_engine).
Proof.
  refine (tts_starts_with_second_voice nat 150%Z 9
            (inr (DemoAudio.demo_engine, DemoAudio.demo_voices))
            DemoAudio.demo_engine DemoAudio.demo_voices _).
  reflexivity.
Defined.

Lemma output_path_is_wav_witness :
  ends_in (TtsService.output_path_of "/tmp" (Some "song.mp3")) ".wav".
Proof.
  refine (proj1 (output_path_is_wav "/tmp" (Some "song.mp3") _)).
  right. right. exists "song". reflexivity.
Defined.

Lemma other_extension_is_kept_witness :
  TtsService.output_path_of "/tmp" (Some "out.ogg") = "out.ogg".
Proof.
  refine (proj1 (other_extension_is_kept "/tmp" "out.ogg" _ _ _)); reflexivity.
Defined.

Lemma set_voice_bounds_witness :
  set_voice nat DemoAudio.demo_tts 2 = DemoAudio.demo_tts
  /\ set_voice nat DemoAudio.demo_tts (-1) = DemoAudio.demo_tts
  /\ voice (engine (set_voice nat DemoAudio.demo_tts 1)) = "v1".
Proof.
  split; [|split].
  - refine (proj1 (set_voice_bounds nat DemoAudio.demo_tts 2) _). right. simpl. lia.
  - refine (proj1 (set_voice_bounds nat DemoAudio.demo_tts (-1)) _). left. lia.
  - refine (proj1 (proj2 (set_voice_bounds nat DemoAudio.demo_tts 1))
              {| voice_id := "v1"; voice_name := "Zira"; voice_languages := [] |} _ _);
      [lia | reflexivity].
Defined.

Lemma transcribe_audio_file_outcomes_witness :
  SttService.transcribe_audio_file "en-US" DemoAudio.demo_recognize
    {[ "/tmp/a.wav" := "static" ]} "/tmp/a.wav" None
  = inl (Exception "STT service error: connection failed").
Proof.
  refine (proj1 (proj2 (proj2 (proj2 (proj2
    (transcribe_audio_file_outcomes "en-US" DemoAudio.demo_recognize
       {[ "/tmp/a.wav" := "static" ]} "/tmp/a.wav" None))))) "connection failed" _).
  reflexivity.
Defined.

End AudioProps.
